(** * KeepassxcDatabase: the wrapper around the KeePassXC command-line tool

    A shallow embedding of [src/keepassxc/keepassxc_db.py].  The class keeps
    a cached passphrase with an inactivity expiry and shells out to
    [keepassxc-cli]; here every method is a function in a state-and-exception
    monad over the object's fields, the outside world (clock, file system,
    processes) and the list of processes started so far. *)

From stdpp Require Import base option list numbers gmap.
From Stdlib Require Import ZArith Ascii String Lia DecimalString.

Local Open Scope Z_scope.

(** ** Python text

    A [str] is a sequence of Unicode code points. *)

Definition char := N.
Definition str := list char.

(** A literal of the source, written as a Rocq string. *)
Definition lit (s : string) : str := map N_of_ascii (list_ascii_of_string s).

Definition LF : char := 10%N.
Definition CR : char := 13%N.

(** The line boundaries of [str.splitlines]: LF, VT, FF, CR, FS, GS, RS,
    NEL, LINE SEPARATOR and PARAGRAPH SEPARATOR. *)
Definition is_linebreak (c : char) : bool :=
  existsb (N.eqb c)
          [10; 11; 12; 13; 28; 29; 30; 133; 8232; 8233]%N.

(** [splitlines_from cur s]: [cur] holds, reversed, the characters of the
    line being read.  A CR directly followed by LF is one boundary; no empty
    line is produced after a final boundary. *)
Fixpoint splitlines_from (cur : str) (s : str) : list str :=
  match s with
  | [] => match cur with [] => [] | _ :: _ => [rev cur] end
  | c :: rest =>
      if is_linebreak c then
        match rest with
        | d :: rest' =>
            if (N.eqb c CR && N.eqb d LF)%bool
            then rev cur :: splitlines_from [] rest'
            else rev cur :: splitlines_from [] rest
        | [] => rev cur :: splitlines_from [] rest
        end
      else splitlines_from (c :: cur) rest
  end.

(** [out.splitlines()] *)
Definition splitlines (s : str) : list str := splitlines_from [] s.

(** [s.lstrip(chars)], [s.rstrip(chars)], [s.strip(chars)]: characters of
    the set [chars] are removed at the ends. *)
Fixpoint lstrip (chars : str) (s : str) : str :=
  match s with
  | c :: rest => if existsb (N.eqb c) chars then lstrip chars rest else s
  | [] => []
  end.

Definition rstrip (chars : str) (s : str) : str := rev (lstrip chars (rev s)).

Definition strip (chars : str) (s : str) : str := rstrip chars (lstrip chars s).

(** [s.startswith(p)] and [needle in hay] *)
Fixpoint startswith (p s : str) : bool :=
  match p, s with
  | [], _ => true
  | _ :: _, [] => false
  | c :: p', d :: s' => (N.eqb c d && startswith p' s')%bool
  end.

Fixpoint contains (needle hay : str) : bool :=
  (startswith needle hay
   || match hay with [] => false | _ :: hay' => contains needle hay' end)%bool.

(** [l[1:]] *)
Definition slice_from_1 (l : str) : str := drop 1 l.

(** ** Time

    A [datetime] is a number of microseconds since 0001-01-01 00:00:00, the
    first instant the type holds; the last one is 9999-12-31
    23:59:59.999999, the end of day 3652059. *)

Definition datetime := Z.

Definition DATETIME_MAX : Z := 315537897599999999.

Definition is_datetime (t : Z) : bool :=
  (Z.leb 0 t && Z.leb t DATETIME_MAX)%bool.

(** [timedelta(seconds=n)] holds [n] million microseconds.  It raises
    [OverflowError] unless the whole days in [n] are at most 999999999,
    either way. *)
Definition timedelta (seconds : Z) : Z := seconds * 1000000.

Definition is_timedelta (seconds : Z) : bool :=
  (Z.leb (-999999999) (seconds / 86400)
   && Z.leb (seconds / 86400) 999999999)%bool.

(** [t + timedelta(seconds=n)]; [None] stands for the [OverflowError] that
    [timedelta] raises, or the sum when it leaves the range of
    [datetime]. *)
Definition datetime_plus_seconds (t : datetime) (seconds : Z)
  : option datetime :=
  if (is_timedelta seconds && is_datetime (t + timedelta seconds))%bool
  then Some (t + timedelta seconds)
  else None.

(** The instant [seconds] after [t] is a [datetime]: neither [timedelta]
    nor the sum raises. *)
Definition representable (t : datetime) (seconds : Z) : Prop :=
  -999999999 <= seconds / 86400 <= 999999999 /\
  0 <= t + seconds * 1000000 <= DATETIME_MAX.

(** ** Exceptions and results *)

Inductive exn : Type :=
| KeepassxcCliNotFoundError
| KeepassxcFileNotFoundError (args : option str)
| KeepassxcLockedDbError
| KeepassxcCliError (message : str)
| TypeError
| OverflowError.

Inductive result (A : Type) : Type :=
| Return (a : A)
| Raise (e : exn).
Arguments Return {A} a.
Arguments Raise {A} e.

(** ** The object *)

Record KeepassxcDatabase : Type := mkDb {
  cli : str;
  cli_checked : bool;
  path : option str;
  path_checked : bool;
  key_file_path : option str;
  passphrase : option str;
  passphrase_expires_at : option datetime;
  inactivity_lock_timeout : Z
}.

(** [KeepassxcDatabase.__init__] *)
Definition init : KeepassxcDatabase :=
  {| cli := lit "keepassxc-cli";
     cli_checked := false;
     path := None;
     path_checked := false;
     key_file_path := None;
     passphrase := None;
     passphrase_expires_at := None;
     inactivity_lock_timeout := 0 |}.

Definition with_cli_checked (v : bool) (d : KeepassxcDatabase) :=
  mkDb (cli d) v (path d) (path_checked d) (key_file_path d)
       (passphrase d) (passphrase_expires_at d) (inactivity_lock_timeout d).
Definition with_path (v : option str) (d : KeepassxcDatabase) :=
  mkDb (cli d) (cli_checked d) v (path_checked d) (key_file_path d)
       (passphrase d) (passphrase_expires_at d) (inactivity_lock_timeout d).
Definition with_path_checked (v : bool) (d : KeepassxcDatabase) :=
  mkDb (cli d) (cli_checked d) (path d) v (key_file_path d)
       (passphrase d) (passphrase_expires_at d) (inactivity_lock_timeout d).
Definition with_key_file_path (v : option str) (d : KeepassxcDatabase) :=
  mkDb (cli d) (cli_checked d) (path d) (path_checked d) v
       (passphrase d) (passphrase_expires_at d) (inactivity_lock_timeout d).
Definition with_passphrase (v : option str) (d : KeepassxcDatabase) :=
  mkDb (cli d) (cli_checked d) (path d) (path_checked d) (key_file_path d)
       v (passphrase_expires_at d) (inactivity_lock_timeout d).
Definition with_passphrase_expires_at (v : option datetime) (d : KeepassxcDatabase) :=
  mkDb (cli d) (cli_checked d) (path d) (path_checked d) (key_file_path d)
       (passphrase d) v (inactivity_lock_timeout d).
Definition with_inactivity_lock_timeout (v : Z) (d : KeepassxcDatabase) :=
  mkDb (cli d) (cli_checked d) (path d) (path_checked d) (key_file_path d)
       (passphrase d) (passphrase_expires_at d) v.

(** Truth value of a field that holds [None] or a string. *)
Definition truthy (o : option str) : bool :=
  match o with
  | Some (_ :: _) => true
  | _ => false
  end.

(** ** Processes *)

(** What [subprocess.run] hands back, with both streams decoded. *)
Record CompletedProcess : Type := mkProc {
  proc_stderr : str;
  proc_stdout : str;
  returncode : Z
}.

(** One call of [subprocess.run]: the argument vector and the text written
    to the standard input, if any. *)
Record Invocation : Type := mkInv {
  argv : list str;
  input : option str
}.

(** An argument of [run_cli] is a string, or [None] when [self.path] was
    never set. *)
Definition pyarg := option str.

(** The argument vector built at the start of [run_cli]. *)
Definition cli_args (d : KeepassxcDatabase) (args : list pyarg) : list pyarg :=
  if truthy (key_file_path d)
  then [Some (cli d)] ++ take 1 args
         ++ [Some (lit "-k"); key_file_path d] ++ drop 1 args
  else [Some (cli d)] ++ args.

(** All arguments are strings, or the spawn is refused with a [TypeError]. *)
Fixpoint all_str (l : list pyarg) : option (list str) :=
  match l with
  | [] => Some []
  | Some s :: l' =>
      match all_str l' with Some r => Some (s :: r) | None => None end
  | None :: _ => None
  end.

(** The attributes read by [get_entry_details], in the order of the loop. *)
Definition ATTRS : list str :=
  [lit "UserName"; lit "Password"; lit "URL"; lit "Notes"].

Definition ls_args (d : KeepassxcDatabase) : list pyarg :=
  [Some (lit "ls"); Some (lit "-q"); path d].

Definition search_args (d : KeepassxcDatabase) (query : str) : list pyarg :=
  [Some (lit "search"); Some (lit "-q"); path d; Some query].

Definition show_args (d : KeepassxcDatabase) (attr entry : str) : list pyarg :=
  [Some (lit "show"); Some (lit "-q"); Some (lit "-a"); Some attr; path d;
   Some (lit "/" ++ entry)].

(** ** The outside world

    The clock, the file system and the processes are not part of the
    program: they are an interface, and every statement below holds for
    every implementation of it. *)

Class OS (World : Type) : Type := {
  (** [datetime.now()]: the reading, and the world after it *)
  datetime_now : World -> datetime * World;
  (** [subprocess.run(argv, input=...)]: [None] stands for [OSError] *)
  subprocess_run :
    list str -> option str -> World -> option CompletedProcess * World;
  (** [os.path.exists] *)
  os_path_exists : str -> World -> bool;
  (** [os.path.expanduser] *)
  os_path_expanduser : str -> World -> str
}.

(** The state threaded through a method: the object, the world, and the
    processes started so far, oldest first. *)
Record St (World : Type) : Type := mkSt {
  self : KeepassxcDatabase;
  world : World;
  spawned : list Invocation
}.
Arguments mkSt {World} self world spawned.
Arguments self {World} s.
Arguments world {World} s.
Arguments spawned {World} s.

(** A method either returns or raises, and leaves a state in both cases. *)
Definition M (World A : Type) : Type := St World -> result A * St World.

Definition ret {World A} (a : A) : M World A := fun st => (Return a, st).

Definition raise {World A} (e : exn) : M World A := fun st => (Raise e, st).

Definition bind {World A B} (m : M World A) (k : A -> M World B) : M World B :=
  fun st =>
    match m st with
    | (Return a, st') => k a st'
    | (Raise e, st') => (Raise e, st')
    end.

Notation "x <- m ;; k" := (bind m (fun x => k))
  (at level 200, m at level 99, right associativity).
Notation "m ;;; k" := (bind m (fun _ => k))
  (at level 200, right associativity).

Definition get {World} : M World KeepassxcDatabase :=
  fun st => (Return (self st), st).

(** An assignment to a field of [self]. *)
Definition modify {World} (f : KeepassxcDatabase -> KeepassxcDatabase)
  : M World unit :=
  fun st => (Return tt, mkSt (f (self st)) (world st) (spawned st)).

Section Methods.
Context {World : Type} {os : OS World}.

Definition now : M World datetime :=
  fun st =>
    let '(t, w) := datetime_now (world st) in
    (Return t, mkSt (self st) w (spawned st)).

(** [subprocess.run]; the call is recorded whether or not the process
    could be started. *)
Definition run (args : list str) (inp : option str)
  : M World (option CompletedProcess) :=
  fun st =>
    let '(r, w) := subprocess_run args inp (world st) in
    (Return r, mkSt (self st) w (spawned st ++ [mkInv args inp])).

Definition exists_ (p : str) : M World bool :=
  fun st => (Return (os_path_exists p (world st)), st).

Definition expanduser (p : str) : M World str :=
  fun st => (Return (os_path_expanduser p (world st)), st).

(** [can_execute_cli] *)
Definition can_execute_cli : M World bool :=
  d <- get ;;
  r <- run [cli d] None ;;
  match r with
  | Some _ => ret true
  | None => ret false
  end.

(** [run_cli], called with any number of arguments, returning [(stderr, stdout, return_code)].
    [bytes(self.passphrase, "utf-8")] raises [TypeError] on [None], and so
    does the spawn on an argument that is [None]; neither is caught by
    [except OSError].  Nor is the [OverflowError] of the new expiry, which is
    computed once the process has ended.  The passphrase and the arguments
    are text that UTF-8 encodes and that holds no NUL, and the tool writes
    UTF-8, as the specification has them. *)
Definition run_cli (args : list pyarg) : M World (str * str * Z) :=
  d <- get ;;
  match passphrase d with
  | None => raise TypeError
  | Some pw =>
      match all_str (cli_args d args) with
      | None => raise TypeError
      | Some av =>
          r <- run av (Some pw) ;;
          match r with
          | None => raise KeepassxcCliNotFoundError
          | Some proc =>
              (if Z.eqb (inactivity_lock_timeout d) 0 then ret tt
               else
                 t <- now ;;
                 match datetime_plus_seconds t (inactivity_lock_timeout d) with
                 | None => raise OverflowError
                 | Some e => modify (with_passphrase_expires_at (Some e))
                 end) ;;;
              ret (proc_stderr proc, proc_stdout proc, returncode proc)
          end
      end
  end.

(** [initialize], first block: the tool is tried once. *)
Definition initialize_cli : M World unit :=
  d <- get ;;
  if cli_checked d then ret tt
  else
    ok <- can_execute_cli ;;
    if ok then modify (with_cli_checked true)
    else raise KeepassxcCliNotFoundError.

(** [initialize], second block: another path forgets the passphrase. *)
Definition initialize_path (p : str) : M World unit :=
  d <- get ;;
  if decide (Some p = path d) then ret tt
  else
    modify (with_path (Some p)) ;;;
    modify (with_path_checked false) ;;;
    modify (with_passphrase None).

(** [initialize], third block: the database file must exist. *)
Definition initialize_path_checked : M World unit :=
  d <- get ;;
  if path_checked d then ret tt
  else
    match path d with
    | None => raise TypeError
    | Some q =>
        ex <- exists_ q ;;
        if ex then modify (with_path_checked true)
        else raise (KeepassxcFileNotFoundError None)
    end.

(** [initialize], last block: the key file, if one is given. *)
Definition initialize_key_file (kf : option str) : M World unit :=
  if truthy kf then
    match kf with
    | None => ret tt
    | Some k =>
        expanded <- expanduser k ;;
        ex <- exists_ expanded ;;
        if ex then modify (with_key_file_path (Some expanded))
        else raise (KeepassxcFileNotFoundError
                      (Some (lit "Key file not found: " ++ expanded)))
    end
  else modify (with_key_file_path None).

(** [initialize(path, inactivity_lock_timeout, key_file_path=None)] *)
Definition initialize (p : str) (timeout : Z) (kf : option str)
  : M World unit :=
  modify (with_inactivity_lock_timeout timeout) ;;;
  initialize_cli ;;;
  initialize_path p ;;;
  initialize_path_checked ;;;
  initialize_key_file kf.

(** [change_path(new_path)] *)
Definition change_path (new_path : str) : M World unit :=
  q <- expanduser new_path ;;
  modify (with_path (Some q)) ;;;
  modify (with_path_checked false) ;;;
  modify (with_passphrase None) ;;;
  modify (with_passphrase_expires_at None).

(** [change_inactivity_lock_timeout(secs)] *)
Definition change_inactivity_lock_timeout (secs : Z) : M World unit :=
  modify (with_inactivity_lock_timeout secs) ;;;
  modify (with_passphrase None) ;;;
  modify (with_passphrase_expires_at None).

(** [is_passphrase_needed()]; [datetime.now() > None] raises
    [TypeError]. *)
Definition is_passphrase_needed : M World bool :=
  d <- get ;;
  match passphrase d with
  | None => ret true
  | Some _ =>
      if Z.eqb (inactivity_lock_timeout d) 0 then ret false
      else
        t <- now ;;
        match passphrase_expires_at d with
        | None => raise TypeError
        | Some e =>
            if Z.gtb t e
            then modify (with_passphrase None) ;;; ret true
            else ret false
        end
  end.

(** [verify_and_set_passphrase(passphrase)] *)
Definition verify_and_set_passphrase (pw : str) : M World bool :=
  modify (with_passphrase (Some pw)) ;;;
  d <- get ;;
  r <- run_cli (ls_args d) ;;
  let '(_, _, return_code) := r in
  if Z.eqb return_code 0 then ret true
  else modify (with_passphrase None) ;;; ret false.

(** [search(query)] *)
Definition search (query : str) : M World (list str) :=
  locked <- is_passphrase_needed ;;
  if locked : bool then raise KeepassxcLockedDbError
  else
    d <- get ;;
    r <- run_cli (search_args d query) ;;
    let '(err, out, return_code) := r in
    if Z.eqb return_code 0
    then ret (map slice_from_1 (splitlines out))
    else if contains (lit "No results for that") err then ret []
         else raise (KeepassxcCliError err).

(** The loop of [get_entry_details] over the attributes still to read;
    [attrs] is the dict filled so far. *)
Fixpoint read_attrs (todo : list str) (entry : str) (attrs : gmap str str)
  : M World (gmap str str) :=
  match todo with
  | [] => ret attrs
  | attr :: todo' =>
      d <- get ;;
      r <- run_cli (show_args d attr entry) ;;
      let '(err, out, return_code) := r in
      if Z.eqb return_code 0
      then read_attrs todo' entry (<[attr := strip [LF] out]> attrs)
      else raise (KeepassxcCliError err)
  end.

(** [get_entry_details(entry)] *)
Definition get_entry_details (entry : str) : M World (gmap str str) :=
  locked <- is_passphrase_needed ;;
  if locked : bool then raise KeepassxcLockedDbError
  else read_attrs ATTRS entry ∅.

(** Whether the expiry can be armed in the world [w1] a process leaves:
    there is no timeout, or the clock reading plus the timeout is a
    [datetime]. *)
Definition arms (st : St World) (w1 : World) : bool :=
  Z.eqb (inactivity_lock_timeout (self st)) 0
  || match datetime_plus_seconds (fst (datetime_now w1))
                                 (inactivity_lock_timeout (self st)) with
     | Some _ => true
     | None => false
     end.

(** The state left by a process that could be started, when the expiry can
    be armed: it is re-armed from the clock when a timeout is configured. *)
Definition rearmed (st : St World) (w1 : World) (inv : Invocation)
  : St World :=
  if Z.eqb (inactivity_lock_timeout (self st)) 0
  then mkSt (self st) w1 (spawned st ++ [inv])
  else
    let '(t, w2) := datetime_now w1 in
    mkSt (with_passphrase_expires_at
            (Some (t + timedelta (inactivity_lock_timeout (self st))))
            (self st))
         w2 (spawned st ++ [inv]).

(** The state left by a process that could be started, when the expiry
    cannot be armed: the clock has been read and nothing is stored. *)
Definition unarmed (st : St World) (w1 : World) (inv : Invocation)
  : St World :=
  mkSt (self st) (snd (datetime_now w1)) (spawned st ++ [inv]).

End Methods.

(** The argument vector of [run_cli] when every argument is a string. *)
Definition argv_of (d : KeepassxcDatabase) (args : list str) : list str :=
  match key_file_path d with
  | Some (c :: k) =>
      [cli d] ++ take 1 args ++ [lit "-k"; c :: k] ++ drop 1 args
  | _ => [cli d] ++ args
  end.


(** ** A simulated world

    A small implementation of the interface, used to run the methods on
    concrete inputs: a clock that advances by [sim_step] with every process,
    a set of existing files, and a tool that accepts one passphrase. *)

Record Sim : Type := mkSim {
  sim_clock : datetime;
  sim_step : Z;
  sim_installed : bool;
  sim_files : list str;
  sim_secret : str;
  sim_search : CompletedProcess;
  sim_show : list (str * str)
}.

Fixpoint assoc (k : str) (l : list (str * str)) : option str :=
  match l with
  | [] => None
  | (k', v) :: l' => if decide (k = k') then Some v else assoc k l'
  end.

(** The argument that follows [-a]. *)
Fixpoint attr_of (av : list str) : str :=
  match av with
  | a :: rest =>
      if decide (a = lit "-a") then hd [] rest else attr_of rest
  | [] => []
  end.

Definition sim_tick (w : Sim) : Sim :=
  mkSim (sim_clock w + sim_step w) (sim_step w) (sim_installed w)
        (sim_files w) (sim_secret w) (sim_search w) (sim_show w).

Definition sim_run (av : list str) (inp : option str) (w : Sim)
  : option CompletedProcess * Sim :=
  if sim_installed w then
    (Some
       match inp with
       | None => mkProc [] (lit "Usage: keepassxc-cli [options] command") 0
       | Some pw =>
           if decide (pw = sim_secret w) then
             if decide (av !! 1%nat = Some (lit "ls")) then mkProc [] [] 0
             else if decide (av !! 1%nat = Some (lit "search"))
             then sim_search w
             else match assoc (attr_of av) (sim_show w) with
                  | Some v => mkProc [] v 0
                  | None => mkProc (lit "Could not find entry.") [] 1
                  end
           else mkProc (lit "Invalid credentials were provided.") [] 1
       end,
     sim_tick w)
  else (None, w).

#[export] Instance sim_os : OS Sim := {|
  datetime_now w := (sim_clock w, w);
  subprocess_run := sim_run;
  os_path_exists p w := bool_decide (p ∈ sim_files w);
  os_path_expanduser p w := p
|}.

Definition db_kdbx : str := lit "/home/u/db.kdbx".
Definition key_file : str := lit "/home/u/db.key".

(** One second per process; the database and a key file exist; the
    passphrase is [correct]. *)
Definition sim0 : Sim :=
  {| sim_clock := 0;
     sim_step := 1000000;
     sim_installed := true;
     sim_files := [db_kdbx; key_file];
     sim_secret := lit "correct";
     sim_search := mkProc [] (lit "/Personal/GitHub" ++ [LF]) 0;
     sim_show := [(lit "UserName", lit "octocat" ++ [LF]);
                  (lit "Password", lit "hunter2" ++ [LF]);
                  (lit "URL", lit "https://github.com" ++ [LF]);
                  (lit "Notes", [LF] ++ lit "second line" ++ [LF])] |}.

Definition fresh : St Sim := mkSt init sim0 [].

(** The state a method leaves, and what it returned or raised. *)
Definition after {World A} (m : M World A) (st : St World) : St World :=
  snd (m st).
Definition outcome {World A} (m : M World A) (st : St World) : result A :=
  fst (m st).

(** The world is not under the program's control: it may change between
    two calls. *)
Definition set_world {World} (w : World) (st : St World) : St World :=
  mkSt (self st) w (spawned st).

Definition uninstall (w : Sim) : Sim :=
  mkSim (sim_clock w) (sim_step w) false
        (sim_files w) (sim_secret w) (sim_search w) (sim_show w).

Definition at_time (t : datetime) (w : Sim) : Sim :=
  mkSim t (sim_step w) (sim_installed w)
        (sim_files w) (sim_secret w) (sim_search w) (sim_show w).

Definition with_search (p : CompletedProcess) (w : Sim) : Sim :=
  mkSim (sim_clock w) (sim_step w) (sim_installed w)
        (sim_files w) (sim_secret w) p (sim_show w).

(** ** Sessions in the simulated world *)

Definition correct : str := lit "correct".
Definition github : str := lit "Personal/GitHub".

(** After [initialize(db_kdbx, timeout, kf)] on a new object. *)
Definition configured (timeout : Z) (kf : option str) : St Sim :=
  after (initialize db_kdbx timeout kf) fresh.

(** After a successful [verify_and_set_passphrase] on top of it. *)
Definition unlocked (timeout : Z) (kf : option str) : St Sim :=
  after (verify_and_set_passphrase correct) (configured timeout kf).


(** The same session once the tool has been removed from the machine. *)
Definition tool_removed (st : St Sim) : St Sim :=
  set_world (uninstall (world st)) st.

(** The same session with a database that holds no entry. *)
Definition entry_missing (st : St Sim) : St Sim :=
  set_world
    (mkSim (sim_clock (world st)) (sim_step (world st))
           (sim_installed (world st)) (sim_files (world st))
           (sim_secret (world st)) (sim_search (world st)) [])
    st.

(** A path at which there is no file. *)
Definition other_kdbx : str := lit "/home/u/other.kdbx".

(** The same session with a tool whose search finds nothing. *)
Definition nothing_found (st : St Sim) : St Sim :=
  set_world
    (with_search (mkProc (lit "No results for that search term.") [] 1)
                 (world st))
    st.

(** The same session with a tool whose search fails. *)
Definition search_broken (st : St Sim) : St Sim :=
  set_world
    (with_search (mkProc (lit "Unable to open the database.") [] 1)
                 (world st))
    st.

(** A timeout of a million million seconds, some 31688 years. *)
Definition far_timeout : Z := 1000000000000.

(** The session unlocked with timeout 5 and then initialized again, with
    the same path and that timeout. *)
Definition reconfigured : St Sim :=
  after (initialize db_kdbx far_timeout None) (unlocked 5 None).

(** ** Reading an entry, step by step *)


(** The dict after the assignments [attrs[attr] = out.strip(newline)] for
    the attributes [todo] and their outputs [outs], in order. *)
Fixpoint filled (attrs : gmap str str) (todo outs : list str) : gmap str str :=
  match todo, outs with
  | attr :: todo', out :: outs' =>
      filled (<[attr := strip [LF] out]> attrs) todo' outs'
  | _, _ => attrs
  end.



(** The fields that decide the lock: path, passphrase, expiry, timeout. *)
Definition lock_state (d : KeepassxcDatabase)
  : option str * option str * option datetime * Z :=
  (path d, passphrase d, passphrase_expires_at d, inactivity_lock_timeout d).

(** A text without a line boundary. *)
Definition one_line (s : str) : Prop :=
  Forall (fun c => is_linebreak c = false) s.

(** ** Histories

    What a caller can do with the object: call one of its methods, with any
    arguments, and go on whether the call returned or raised.  Between two
    calls the world may have changed. *)
Inductive call (World : Type) : Type :=
| Initialize (p : str) (timeout : Z) (kf : option str)
| ChangePath (new_path : str)
| ChangeInactivityLockTimeout (secs : Z)
| IsPassphraseNeeded
| VerifyAndSetPassphrase (pw : str)
| Search (query : str)
| GetEntryDetails (entry : str)
| CanExecuteCli
| RunCli (args : list pyarg)
| WorldChanges (w : World).
Arguments Initialize {World} p timeout kf.
Arguments ChangePath {World} new_path.
Arguments ChangeInactivityLockTimeout {World} secs.
Arguments IsPassphraseNeeded {World}.
Arguments VerifyAndSetPassphrase {World} pw.
Arguments Search {World} query.
Arguments GetEntryDetails {World} entry.
Arguments CanExecuteCli {World}.
Arguments RunCli {World} args.
Arguments WorldChanges {World} w.

(** The state one call leaves. *)
Definition perform {World : Type} {os : OS World} (c : call World)
           (st : St World) : St World :=
  match c with
  | Initialize p timeout kf => after (initialize p timeout kf) st
  | ChangePath new_path => after (change_path new_path) st
  | ChangeInactivityLockTimeout secs =>
      after (change_inactivity_lock_timeout secs) st
  | IsPassphraseNeeded => after is_passphrase_needed st
  | VerifyAndSetPassphrase pw => after (verify_and_set_passphrase pw) st
  | Search query => after (search query) st
  | GetEntryDetails entry => after (get_entry_details entry) st
  | CanExecuteCli => after can_execute_cli st
  | RunCli args => after (run_cli args) st
  | WorldChanges w => set_world w st
  end.

(** The state after the calls [cs], made in order on a new object in the
    world [w]. *)
Definition history {World : Type} {os : OS World} (cs : list (call World))
           (w : World) : St World :=
  foldl (fun st c => perform c st) (mkSt init w []) cs.

(** The fields a query leaves alone: everything but the passphrase and its
    expiry. *)
Definition configuration (d : KeepassxcDatabase)
  : str * bool * option str * bool * option str * Z :=
  (cli d, cli_checked d, path d, path_checked d, key_file_path d,
   inactivity_lock_timeout d).

(** A call of the tool [tool] by an object that holds the passphrase [pw]:
    the name of the tool comes first; without standard input the call is the
    bare name; and the standard input, if any, is the passphrase. *)
Definition tool_call (tool : str) (pw : option str) (inv : Invocation)
  : Prop :=
  head (argv inv) = Some tool /\
  (input inv = None -> argv inv = [tool]) /\
  (input inv = None \/ input inv = pw).

(** A step that keeps the configuration, keeps or forgets the passphrase,
    and starts only the tool. *)
Definition quiet {World : Type} (st st' : St World) : Prop :=
  configuration (self st') = configuration (self st) /\
  (passphrase (self st') = passphrase (self st) \/
   passphrase (self st') = None) /\
  exists new : list Invocation,
    spawned st' = spawned st ++ new /\
    Forall (tool_call (cli (self st)) (passphrase (self st))) new.

(** What holds of the object after any history. *)
Definition consistent (d : KeepassxcDatabase) : Prop :=
  cli d = lit "keepassxc-cli" /\
  (path_checked d = true -> cli_checked d = true /\ path d <> None) /\
  (key_file_path d <> None -> cli_checked d = true).

(** The passphrase a call hands to the object, if it hands one. *)
Definition supplied {World : Type} (c : call World) : list str :=
  match c with
  | VerifyAndSetPassphrase pw => [pw]
  | _ => []
  end.

(** What every call keeps, [given] being the passphrases handed to the
    object so far. *)
Definition sound {World : Type} (given : list str) (st : St World) : Prop :=
  consistent (self st) /\
  (forall pw : str, passphrase (self st) = Some pw -> pw ∈ given) /\
  Forall (fun inv =>
            head (argv inv) = Some (lit "keepassxc-cli") /\
            (input inv = None -> argv inv = [lit "keepassxc-cli"]) /\
            (forall pw : str, input inv = Some pw -> pw ∈ given))
         (spawned st).

(** ** Result items

    [src/keepassxc/render.py] turns what the object returns into the items
    of the launcher.  Items and actions are data; each function below gives
    the list it hands to [RenderResultListAction]. *)

#[local] Unset Elimination Schemes.
Inductive Action : Type :=
| DoNothingAction
| ExtensionCustomAction (data : list (str * str)) (keep_app_open : option bool)
| CopyToClipboardAction (text : str)
| ActionList (actions : list Action).
#[local] Set Elimination Schemes.

Inductive ResultItem : Type :=
| ExtensionResultItem (icon name description : str) (on_enter : Action)
| ExtensionSmallResultItem (icon name : str) (on_enter : Action).

(** [NO_SEARCH_RESULTS_ITEM] *)
Definition NO_SEARCH_RESULTS_ITEM : ResultItem :=
  ExtensionResultItem
    (lit "images/not_found.svg")
    (lit "No matching entries found...")
    (lit "Please check spelling or make the query less specific")
    DoNothingAction.

(** An [int] as [format] writes it: in decimal, with a minus sign when
    negative. *)
Definition str_of_int (n : Z) : str :=
  lit (NilZero.string_of_int (Z.to_int n)).

(** [item_more_results_available(cnt)] *)
Definition item_more_results_available (cnt : Z) : ResultItem :=
  ExtensionSmallResultItem
    (lit "images/empty.png")
    (lit "..." ++ str_of_int cnt
       ++ lit " more results available, please refine the search query...")
    DoNothingAction.

(** [l[:n]]: a negative [n] counts from the end. *)
Definition slice_to {A : Type} (n : Z) (l : list A) : list A :=
  if Z.ltb n 0 then take (Z.to_nat (Z.of_nat (List.length l) + n)) l
  else take (Z.to_nat n) l.

(** The item the loop of [search_results] builds for one entry. *)
Definition entry_item (keyword arg entry : str) : ResultItem :=
  ExtensionSmallResultItem
    (lit "images/key.svg")
    entry
    (ExtensionCustomAction
       [(lit "action", lit "activate_entry");
        (lit "entry", entry);
        (lit "keyword", keyword);
        (lit "prev_query_arg", arg)]
       (Some true)).

(** [search_results(keyword, arg, entries, max_items)] *)
Definition search_results (keyword arg : str) (entries : list str)
           (max_items : Z) : list ResultItem :=
  match entries with
  | [] => [NO_SEARCH_RESULTS_ITEM]
  | _ :: _ =>
      map (entry_item keyword arg) (slice_to max_items entries)
        ++ (if Z.gtb (Z.of_nat (List.length entries)) max_items
            then [item_more_results_available
                    (Z.of_nat (List.length entries) - max_items)]
            else [])
  end.

(** [s.capitalize()] on ASCII text: the first character in upper case, the
    others in lower case.  Characters outside ASCII are left as they are;
    the source capitalizes the four ASCII labels below and nothing else. *)
Definition ascii_upper (c : char) : char :=
  if (N.leb 97 c && N.leb c 122)%bool then (c - 32)%N else c.

Definition ascii_lower (c : char) : char :=
  if (N.leb 65 c && N.leb c 90)%bool then (c + 32)%N else c.

Definition capitalize (s : str) : str :=
  match s with
  | [] => []
  | c :: rest => ascii_upper c :: map ascii_lower rest
  end.

(** The attributes shown by [active_entry], with their labels, in the order
    of its loop. *)
Definition ACTIVE_ATTRS : list (str * str) :=
  [(lit "Password", lit "password");
   (lit "UserName", lit "username");
   (lit "URL", lit "URL");
   (lit "Notes", lit "notes")].

(** The item the loop of [active_entry] builds for an attribute whose value
    [val] is not empty. *)
Definition active_item (attr attr_nice val : str) : ResultItem :=
  let action :=
    ActionList
      [ExtensionCustomAction
         [(lit "action", lit "show_notification");
          (lit "summary",
           capitalize attr_nice ++ lit " copied to the clipboard.")]
         None;
       CopyToClipboardAction val] in
  if decide (attr = lit "Password")
  then ExtensionSmallResultItem
         (lit "images/copy.svg")
         (lit "Copy password to the clipboard")
         action
  else ExtensionResultItem
         (lit "images/copy.svg")
         (capitalize attr_nice ++ lit ": " ++ val)
         (lit "Copy " ++ attr_nice ++ lit " to the clipboard")
         action.

(** [active_entry(details)]; [details.get(attr, "")] is the empty text for
    an attribute the dict does not hold. *)
Definition active_entry (details : gmap str str) : list ResultItem :=
  flat_map
    (fun '(attr, attr_nice) =>
       match default [] (details !! attr) with
       | [] => []
       | c :: v => [active_item attr attr_nice (c :: v)]
       end)
    ACTIVE_ATTRS.

(** The texts an item copies to the clipboard when it is chosen. *)
Definition copied (item : ResultItem) : list str :=
  match
    match item with
    | ExtensionResultItem _ _ _ a => a
    | ExtensionSmallResultItem _ _ a => a
    end
  with
  | ActionList l =>
      flat_map (fun a => match a with
                         | CopyToClipboardAction t => [t]
                         | _ => []
                         end) l
  | CopyToClipboardAction t => [t]
  | _ => []
  end.

(** ** More runs in the simulated world *)

(** A key file that does not exist. *)
Definition missing_key : str := lit "/home/u/none.key".

(** A world without the tool and without any file. *)
Definition bare : Sim :=
  mkSim 0 1000000 false [] (lit "correct") (mkProc [] [] 0) [].

(** A short history: configure, unlock, search. *)
Definition session : list (call Sim) :=
  [Initialize db_kdbx 0 None; VerifyAndSetPassphrase correct; Search github].

(** Unfolds the plumbing of the monad. *)
Ltac unfold_m :=
  unfold after, outcome, bind, get, ret, raise, modify, now, run,
    exists_, expanduser in *.


(** ** How one call of the tool changes the state *)

Section RunCli.
Context {World : Type} {os : OS World}.

Lemma all_str_Some (l : list str) : all_str (map Some l) = Some l.
Proof.
  induction l as [|a l IH]; simpl; [reflexivity|].
  now rewrite IH.
Qed.

Lemma all_str_cli_args (d : KeepassxcDatabase) (args : list str) :
  all_str (cli_args d (map Some args)) = Some (argv_of d args).
Proof.
  unfold cli_args, argv_of.
  destruct (key_file_path d) as [[|c k]|]; cbn [truthy app all_str].
  - now rewrite (all_str_Some args).
  - destruct args as [|a rest]; [reflexivity|].
    change (map Some (a :: rest)) with (Some a :: map Some rest).
    rewrite !firstn_cons, !firstn_O; cbn [skipn app all_str].
    rewrite !skipn_O.
    now rewrite (all_str_Some rest).
  - now rewrite (all_str_Some args).
Qed.

(** The argument vector depends on the tool name and the key file
    only. *)
Lemma argv_of_ext (d d' : KeepassxcDatabase) (args : list str) :
  cli d = cli d' -> key_file_path d = key_file_path d' ->
  argv_of d args = argv_of d' args.
Proof. intros Hc Hk. unfold argv_of. now rewrite Hc, Hk. Qed.

Lemma run_cli_eval (st : St World) (args : list pyarg) (pw : str)
      (av : list str) :
  passphrase (self st) = Some pw ->
  all_str (cli_args (self st) args) = Some av ->
  run_cli args st =
    match subprocess_run av (Some pw) (world st) with
    | (None, w1) =>
        (Raise KeepassxcCliNotFoundError,
         mkSt (self st) w1 (spawned st ++ [mkInv av (Some pw)]))
    | (Some proc, w1) =>
        if arms st w1
        then (Return (proc_stderr proc, proc_stdout proc, returncode proc),
              rearmed st w1 (mkInv av (Some pw)))
        else (Raise OverflowError, unarmed st w1 (mkInv av (Some pw)))
    end.
Proof.
  intros Hpw Hav.
  unfold run_cli, bind, get, run, arms, rearmed, unarmed; simpl.
  rewrite Hpw, Hav; simpl.
  destruct (subprocess_run av (Some pw) (world st)) as [[proc|] w1]; simpl;
    [|reflexivity].
  destruct (Z.eqb (inactivity_lock_timeout (self st)) 0); simpl;
    [reflexivity|].
  unfold now, modify, raise, datetime_plus_seconds; simpl.
  destruct (datetime_now w1) as [t w2]; simpl.
  destruct (is_timedelta _ && is_datetime _)%bool; reflexivity.
Qed.

(** With string arguments only, [run_cli] never fails on its way to the
    spawn. *)
Lemma run_cli_str (st : St World) (args : list str) (pw : str) :
  passphrase (self st) = Some pw ->
  run_cli (map Some args) st =
    match subprocess_run (argv_of (self st) args) (Some pw) (world st) with
    | (None, w1) =>
        (Raise KeepassxcCliNotFoundError,
         mkSt (self st) w1
              (spawned st ++ [mkInv (argv_of (self st) args) (Some pw)]))
    | (Some proc, w1) =>
        if arms st w1
        then (Return (proc_stderr proc, proc_stdout proc, returncode proc),
              rearmed st w1 (mkInv (argv_of (self st) args) (Some pw)))
        else (Raise OverflowError,
              unarmed st w1 (mkInv (argv_of (self st) args) (Some pw)))
    end.
Proof.
  intros Hpw. apply run_cli_eval; [exact Hpw|apply all_str_cli_args].
Qed.

(** Without a timeout the expiry is never computed. *)
Lemma arms_no_timeout (st : St World) (w1 : World) :
  inactivity_lock_timeout (self st) = 0 -> arms st w1 = true.
Proof. intros H. unfold arms. now rewrite H. Qed.

Lemma classic_representable (t : datetime) (seconds : Z) :
  representable t seconds \/ ~ representable t seconds.
Proof. unfold representable. lia. Qed.

(** [representable], computed. *)
Lemma representable_iff (t : datetime) (seconds : Z) :
  representable t seconds <->
  (is_timedelta seconds && is_datetime (t + timedelta seconds))%bool = true.
Proof.
  unfold representable, is_timedelta, is_datetime, timedelta.
  rewrite !andb_true_iff, !Z.leb_le. tauto.
Qed.

Lemma datetime_plus_seconds_spec (t : datetime) (seconds : Z) :
  (representable t seconds ->
   datetime_plus_seconds t seconds = Some (t + seconds * 1000000)) /\
  (~ representable t seconds -> datetime_plus_seconds t seconds = None).
Proof.
  unfold datetime_plus_seconds, representable, is_timedelta, is_datetime,
    timedelta.
  destruct (Z.leb_spec (-999999999) (seconds / 86400));
    destruct (Z.leb_spec (seconds / 86400) 999999999);
    destruct (Z.leb_spec 0 (t + seconds * 1000000));
    destruct (Z.leb_spec (t + seconds * 1000000) DATETIME_MAX);
    cbn [andb]; split; intros Hr; try reflexivity; try lia.
  all: exfalso; apply Hr; lia.
Qed.

Lemma arms_iff (st : St World) (w1 : World) :
  arms st w1 = true <->
  inactivity_lock_timeout (self st) = 0 \/
  representable (fst (datetime_now w1)) (inactivity_lock_timeout (self st)).
Proof.
  unfold arms.
  destruct (datetime_plus_seconds_spec
              (fst (datetime_now w1)) (inactivity_lock_timeout (self st)))
    as [Hy Hn].
  destruct (Z.eqb_spec (inactivity_lock_timeout (self st)) 0) as [E|E];
    cbn [orb].
  - split; auto.
  - destruct (datetime_plus_seconds _ _) eqn:D.
    + split; [|reflexivity]. intros _. right.
      destruct (classic_representable
                  (fst (datetime_now w1)) (inactivity_lock_timeout (self st)))
        as [R|R]; [exact R|]. discriminate (Hn R).
    + split; [discriminate|]. intros [H|H]; [contradiction|].
      discriminate (Hy H).
Qed.

Lemma arms_not (st : St World) (w1 : World) :
  inactivity_lock_timeout (self st) <> 0 ->
  ~ representable (fst (datetime_now w1)) (inactivity_lock_timeout (self st)) ->
  arms st w1 = false.
Proof.
  intros Ht Hr. destruct (arms st w1) eqn:A; [|reflexivity].
  apply arms_iff in A as [A|A]; contradiction.
Qed.

(** [rearmed] touches the expiry only. *)
Lemma rearmed_fields (st : St World) (w1 : World) (inv : Invocation) :
  let d' := self (rearmed st w1 inv) in
  cli d' = cli (self st) /\
  path d' = path (self st) /\
  key_file_path d' = key_file_path (self st) /\
  passphrase d' = passphrase (self st) /\
  inactivity_lock_timeout d' = inactivity_lock_timeout (self st) /\
  spawned (rearmed st w1 inv) = spawned st ++ [inv].
Proof.
  unfold rearmed.
  destruct (Z.eqb (inactivity_lock_timeout (self st)) 0); simpl;
    [tauto|].
  destruct (datetime_now w1) as [t w2]; simpl; tauto.
Qed.

Lemma rearmed_expiry (st : St World) (w1 : World) (inv : Invocation) :
  passphrase_expires_at (self (rearmed st w1 inv)) =
    if Z.eqb (inactivity_lock_timeout (self st)) 0
    then passphrase_expires_at (self st)
    else Some (fst (datetime_now w1)
               + timedelta (inactivity_lock_timeout (self st))).
Proof.
  unfold rearmed.
  destruct (Z.eqb (inactivity_lock_timeout (self st)) 0); simpl;
    [reflexivity|].
  destruct (datetime_now w1) as [t w2]; reflexivity.
Qed.

End RunCli.

(** ** The lock check *)

Section LockCheck.
Context {World : Type} {os : OS World}.

(** With no passphrase the answer is [True], whatever the clock says. *)
Lemma is_passphrase_needed_None (st : St World) :
  passphrase (self st) = None ->
  is_passphrase_needed st = (Return true, st).
Proof.
  intros H. unfold is_passphrase_needed, bind, get; simpl.
  now rewrite H.
Qed.

(** With a passphrase and no timeout the answer is [False]. *)
Lemma is_passphrase_needed_no_timeout (st : St World) (pw : str) :
  passphrase (self st) = Some pw ->
  inactivity_lock_timeout (self st) = 0 ->
  is_passphrase_needed st = (Return false, st).
Proof.
  intros H H0. unfold is_passphrase_needed, bind, get; simpl.
  now rewrite H, H0.
Qed.

(** With a passphrase, a timeout and an armed expiry, the clock decides,
    and an elapsed timeout clears the passphrase. *)
Lemma is_passphrase_needed_armed (st : St World) (pw : str) (e : datetime) :
  passphrase (self st) = Some pw ->
  inactivity_lock_timeout (self st) <> 0 ->
  passphrase_expires_at (self st) = Some e ->
  is_passphrase_needed st =
    let '(t, w) := datetime_now (world st) in
    if Z.gtb t e
    then (Return true, mkSt (with_passphrase None (self st)) w (spawned st))
    else (Return false, mkSt (self st) w (spawned st)).
Proof.
  intros H H0 He. unfold is_passphrase_needed, bind, get, now; simpl.
  rewrite H. apply Z.eqb_neq in H0. rewrite H0.
  destruct (datetime_now (world st)) as [t w]; simpl.
  rewrite He. destruct (Z.gtb t e); reflexivity.
Qed.

(** With a passphrase, a timeout and no expiry, the comparison raises. *)
Lemma is_passphrase_needed_unarmed (st : St World) (pw : str) :
  passphrase (self st) = Some pw ->
  inactivity_lock_timeout (self st) <> 0 ->
  passphrase_expires_at (self st) = None ->
  is_passphrase_needed st =
    (Raise TypeError,
     mkSt (self st) (snd (datetime_now (world st))) (spawned st)).
Proof.
  intros H H0 He. unfold is_passphrase_needed, bind, get, now; simpl.
  rewrite H. apply Z.eqb_neq in H0. rewrite H0.
  destruct (datetime_now (world st)) as [t w]; simpl.
  now rewrite He.
Qed.

(** An unlocked verdict leaves the object as it was, with a passphrase. *)
Lemma is_passphrase_needed_false (st st1 : St World) :
  is_passphrase_needed st = (Return false, st1) ->
  self st1 = self st /\ spawned st1 = spawned st /\
  exists pw, passphrase (self st) = Some pw.
Proof.
  unfold is_passphrase_needed, bind, get, now; simpl.
  destruct (passphrase (self st)) as [pw|] eqn:Hpw; [|discriminate].
  destruct (Z.eqb (inactivity_lock_timeout (self st)) 0).
  - intros [= <-]. eauto.
  - destruct (datetime_now (world st)) as [t w]; simpl.
    destruct (passphrase_expires_at (self st)) as [e|]; [|discriminate].
    destruct (Z.gtb t e); simpl; [discriminate|].
    intros [= <-]. simpl. eauto.
Qed.

(** The check never starts a process and never touches the expiry or the
    timeout. *)
Lemma is_passphrase_needed_frame (st : St World) :
  let st1 := after is_passphrase_needed st in
  spawned st1 = spawned st /\
  passphrase_expires_at (self st1) = passphrase_expires_at (self st) /\
  inactivity_lock_timeout (self st1) = inactivity_lock_timeout (self st).
Proof.
  unfold after, is_passphrase_needed; unfold_m; simpl.
  destruct (passphrase (self st)) as [pw|]; [|simpl; now repeat split].
  destruct (Z.eqb (inactivity_lock_timeout (self st)) 0);
    [simpl; now repeat split|].
  destruct (datetime_now (world st)) as [t w]; simpl.
  destruct (passphrase_expires_at (self st)) as [e|] eqn:He;
    [|simpl; rewrite He; now repeat split].
  destruct (Z.gtb t e); simpl; rewrite He; now repeat split.
Qed.

End LockCheck.

(** ** The methods, one step at a time *)

Section Steps.
Context {World : Type} {os : OS World}.

Lemma verify_and_set_passphrase_step (cand : str) (st : St World) :
  verify_and_set_passphrase cand st =
    let st0 := mkSt (with_passphrase (Some cand) (self st))
                    (world st) (spawned st) in
    match run_cli (ls_args (self st0)) st0 with
    | (Return (_, _, rc), st1) =>
        if Z.eqb rc 0 then (Return true, st1)
        else (Return false,
              mkSt (with_passphrase None (self st1))
                   (world st1) (spawned st1))
    | (Raise e, st1) => (Raise e, st1)
    end.
Proof.
  unfold verify_and_set_passphrase; unfold_m; cbv zeta.
  cbn [self world spawned fst snd].
  destruct (run_cli _ _) as [[[[err out] rc]|e] st1]; [|reflexivity].
  destruct (Z.eqb rc 0); reflexivity.
Qed.

Lemma search_step (query : str) (st : St World) :
  search query st =
    match is_passphrase_needed st with
    | (Return true, st0) => (Raise KeepassxcLockedDbError, st0)
    | (Return false, st0) =>
        match run_cli (search_args (self st0) query) st0 with
        | (Return (err, out, rc), st1) =>
            if Z.eqb rc 0
            then (Return (map slice_from_1 (splitlines out)), st1)
            else if contains (lit "No results for that") err
                 then (Return [], st1)
                 else (Raise (KeepassxcCliError err), st1)
        | (Raise e, st1) => (Raise e, st1)
        end
    | (Raise e, st0) => (Raise e, st0)
    end.
Proof.
  unfold search, bind.
  destruct (is_passphrase_needed st) as [[[|]|e] st0]; try reflexivity.
  unfold get; cbn [self world spawned fst snd].
  destruct (run_cli _ _) as [[[[err out] rc]|e] st1]; [|reflexivity].
  destruct (Z.eqb rc 0); [reflexivity|].
  destruct (contains _ err); reflexivity.
Qed.

Lemma get_entry_details_step (entry : str) (st : St World) :
  get_entry_details entry st =
    match is_passphrase_needed st with
    | (Return true, st0) => (Raise KeepassxcLockedDbError, st0)
    | (Return false, st0) => read_attrs ATTRS entry ∅ st0
    | (Raise e, st0) => (Raise e, st0)
    end.
Proof.
  unfold get_entry_details, bind.
  destruct (is_passphrase_needed st) as [[[|]|e] st0]; reflexivity.
Qed.

Lemma read_attrs_step (attr : str) (todo : list str) (entry : str)
      (attrs : gmap str str) (st : St World) :
  read_attrs (attr :: todo) entry attrs st =
    match run_cli (show_args (self st) attr entry) st with
    | (Return (err, out, rc), st1) =>
        if Z.eqb rc 0
        then read_attrs todo entry (<[attr := strip [LF] out]> attrs) st1
        else (Raise (KeepassxcCliError err), st1)
    | (Raise e, st1) => (Raise e, st1)
    end.
Proof.
  cbn [read_attrs]. unfold bind, get; cbn [self world spawned fst snd].
  destruct (run_cli _ _) as [[[[err out] rc]|e] st1]; [|reflexivity].
  destruct (Z.eqb rc 0); reflexivity.
Qed.

End Steps.

(** ** What the methods leave untouched *)

Section Frames.
Context {World : Type} {os : OS World}.

(** [run_cli] changes nothing of the object but the expiry, and not even
    that when no timeout is configured. *)
Lemma run_cli_frame (st : St World) (args : list pyarg) :
  let d1 := self (after (run_cli args) st) in
  cli d1 = cli (self st) /\
  path d1 = path (self st) /\
  key_file_path d1 = key_file_path (self st) /\
  passphrase d1 = passphrase (self st) /\
  inactivity_lock_timeout d1 = inactivity_lock_timeout (self st) /\
  (inactivity_lock_timeout (self st) = 0 ->
   passphrase_expires_at d1 = passphrase_expires_at (self st)).
Proof.
  unfold run_cli; unfold_m; simpl.
  destruct (passphrase (self st)) as [pw|] eqn:Hpw;
    [|simpl; rewrite Hpw; now repeat split].
  destruct (all_str (cli_args (self st) args)) as [av|];
    [|simpl; rewrite Hpw; now repeat split].
  destruct (subprocess_run av (Some pw) (world st)) as [[proc|] w1];
    [|simpl; rewrite Hpw; now repeat split].
  simpl.
  destruct (Z.eqb (inactivity_lock_timeout (self st)) 0) eqn:Ht; simpl.
  - rewrite Hpw; now repeat split.
  - destruct (datetime_now w1) as [t w2]; simpl.
    destruct (datetime_plus_seconds t _); simpl;
      rewrite ?Hpw; repeat split; intros H0;
      apply Z.eqb_neq in Ht; contradiction.
Qed.

(** The loop of [get_entry_details] leaves an unarmed expiry unarmed. *)
Lemma read_attrs_no_timeout (todo : list str) (entry : str)
      (attrs : gmap str str) (st : St World) :
  inactivity_lock_timeout (self st) = 0 ->
  let d1 := self (after (read_attrs todo entry attrs) st) in
  inactivity_lock_timeout d1 = 0 /\
  passphrase_expires_at d1 = passphrase_expires_at (self st).
Proof.
  revert attrs st.
  induction todo as [|attr todo IH]; intros attrs st H0; simpl.
  - now split.
  - unfold after, bind, get; simpl.
    pose proof (run_cli_frame st (show_args (self st) attr entry)) as F.
    unfold after in F; simpl in F.
    destruct (run_cli (show_args (self st) attr entry) st)
      as [[[[err out] rc]|e] st1]; simpl in *.
    + destruct F as (_ & _ & _ & _ & Ht & He).
      destruct (Z.eqb rc 0).
      * specialize (IH (<[attr := strip [LF] out]> attrs) st1).
        unfold after in IH; simpl in IH.
        rewrite <- (He H0). apply IH. now rewrite Ht.
      * unfold raise; simpl. split; [now rewrite Ht|now apply He].
    + destruct F as (_ & _ & _ & _ & Ht & He).
      split; [now rewrite Ht|now apply He].
Qed.

End Frames.

(** ** The invocation layer *)

Section Invocation.
Context {World : Type} {os : OS World}.

(** C8. Every call of the tool made by [run_cli] with string arguments
    gets this argument vector: with a key file configured, the tool name,
    the first argument, [-k] and the key-file path, then the remaining
    arguments in their order; with none configured, the tool name followed
    by the arguments unchanged.  The passphrase is what is written to the
    standard input. *)
Theorem keyfile_spliced_after_subcommand
        (st : St World) (pw : str) (args : list str) :
  passphrase (self st) = Some pw ->
  (forall (k a : str) (rest : list str),
      key_file_path (self st) = Some k -> k <> [] -> args = a :: rest ->
      cli_args (self st) (map Some args) =
        map Some (cli (self st) :: a :: lit "-k" :: k :: rest) /\
      spawned (after (run_cli (map Some args)) st) =
        spawned st ++
          [mkInv (cli (self st) :: a :: lit "-k" :: k :: rest) (Some pw)]) /\
  (truthy (key_file_path (self st)) = false ->
   cli_args (self st) (map Some args) = map Some (cli (self st) :: args) /\
   spawned (after (run_cli (map Some args)) st) =
     spawned st ++ [mkInv (cli (self st) :: args) (Some pw)]).
Proof.
  intros Hpw.
  assert (Hsp : spawned (after (run_cli (map Some args)) st) =
                spawned st ++ [mkInv (argv_of (self st) args) (Some pw)]).
  { unfold after. rewrite (run_cli_str st args pw Hpw).
    destruct (subprocess_run (argv_of (self st) args) (Some pw) (world st))
      as [[proc|] w1]; [|reflexivity].
    destruct (arms st w1); cbn [snd]; [apply rearmed_fields|reflexivity]. }
  split.
  - intros k a rest Hk Hne ->.
    destruct k as [|c k]; [contradiction|].
    split.
    + unfold cli_args. rewrite Hk. reflexivity.
    + rewrite Hsp. unfold argv_of. rewrite Hk. reflexivity.
  - intros Hf. split.
    + unfold cli_args. now rewrite Hf.
    + rewrite Hsp. unfold argv_of.
      destruct (key_file_path (self st)) as [[|c k]|];
        [reflexivity|discriminate|reflexivity].
Qed.

(** C4, as the code has it.  Whenever [run_cli] gets a process started
    under a nonzero timeout, whatever the exit code: if the clock reading
    taken after the process plus the timeout is a [datetime], the call
    returns the output of the process and the expiry is that instant, the
    reading plus a million microseconds for each second of the timeout; if
    it is not, the call raises [OverflowError] and the expiry is left as it
    was.  With timeout 0 the expiry is left as it was, by [run_cli] and by
    each of the three methods that call it: [verify_and_set_passphrase] for
    the listing command, [search], and [get_entry_details] for the show
    commands. *)
Theorem expiry_rearmed_by_every_invocation
        (st : St World) (args : list pyarg) (pw : str) (av : list str)
        (proc : CompletedProcess) (w1 : World) :
  passphrase (self st) = Some pw ->
  all_str (cli_args (self st) args) = Some av ->
  subprocess_run av (Some pw) (world st) = (Some proc, w1) ->
  (inactivity_lock_timeout (self st) <> 0 ->
   representable (fst (datetime_now w1))
                 (inactivity_lock_timeout (self st)) ->
   outcome (run_cli args) st =
     Return (proc_stderr proc, proc_stdout proc, returncode proc) /\
   passphrase_expires_at (self (after (run_cli args) st)) =
     Some (fst (datetime_now w1)
           + inactivity_lock_timeout (self st) * 1000000)) /\
  (inactivity_lock_timeout (self st) <> 0 ->
   ~ representable (fst (datetime_now w1))
                   (inactivity_lock_timeout (self st)) ->
   outcome (run_cli args) st = Raise OverflowError /\
   passphrase_expires_at (self (after (run_cli args) st)) =
     passphrase_expires_at (self st)) /\
  (inactivity_lock_timeout (self st) = 0 ->
   outcome (run_cli args) st =
     Return (proc_stderr proc, proc_stdout proc, returncode proc) /\
   passphrase_expires_at (self (after (run_cli args) st)) =
     passphrase_expires_at (self st) /\
   (forall cand : str,
       passphrase_expires_at
         (self (after (verify_and_set_passphrase cand) st)) =
         passphrase_expires_at (self st)) /\
   (forall query : str,
       passphrase_expires_at (self (after (search query) st)) =
         passphrase_expires_at (self st)) /\
   (forall entry : str,
       passphrase_expires_at (self (after (get_entry_details entry) st)) =
         passphrase_expires_at (self st))).
Proof.
  intros Hpw Hav Hrun.
  unfold outcome, after.
  rewrite (run_cli_eval st args pw av Hpw Hav), Hrun.
  split; [|split].
  - intros Hne Hr.
    rewrite (proj2 (arms_iff st w1) (or_intror Hr)). cbn [fst snd].
    split; [reflexivity|].
    rewrite rearmed_expiry.
    apply Z.eqb_neq in Hne. now rewrite Hne.
  - intros Hne Hr. rewrite (arms_not st w1 Hne Hr). now split.
  - intros H0. rewrite (arms_no_timeout st w1 H0). cbn [fst snd].
    split; [reflexivity|].
    rewrite rearmed_expiry, H0. cbn [Z.eqb]. split; [reflexivity|].
    split; [|split].
    + intros cand.
      rewrite verify_and_set_passphrase_step; cbv zeta.
      set (st0 := mkSt (with_passphrase (Some cand) (self st))
                       (world st) (spawned st)).
      pose proof (run_cli_frame st0 (ls_args (self st0))) as F.
      unfold after in F.
      destruct (run_cli (ls_args (self st0)) st0)
        as [[[[err out] rc]|e] st1] eqn:E;
        destruct F as (_ & _ & _ & _ & _ & He);
        specialize (He H0); simpl in He; simpl.
      * destruct (Z.eqb rc 0); simpl; exact He.
      * exact He.
    + intros query.
      rewrite search_step.
      pose proof (is_passphrase_needed_frame st) as (_ & He & Ht).
      unfold after in He, Ht.
      destruct (is_passphrase_needed st) as [[[|]|e] st0]; simpl in *;
        try exact He.
      pose proof (run_cli_frame st0 (search_args (self st0) query)) as F.
      unfold after in F.
      destruct (run_cli (search_args (self st0) query) st0)
        as [[[[err out] rc]|e] st1] eqn:E;
        destruct F as (_ & _ & _ & _ & _ & He');
        rewrite Ht in He'; specialize (He' H0); simpl in He'; simpl;
        [|congruence].
      destruct (Z.eqb rc 0); simpl; [congruence|].
      destruct (contains (lit "No results for that") err); simpl;
        congruence.
    + intros entry.
      rewrite get_entry_details_step.
      pose proof (is_passphrase_needed_frame st) as (_ & He & Ht).
      unfold after in He, Ht.
      destruct (is_passphrase_needed st) as [[[|]|e] st0]; simpl in *;
        try exact He.
      rewrite <- He.
      apply (read_attrs_no_timeout ATTRS entry ∅ st0). congruence.
Qed.

End Invocation.

(** ** Text

    What [in], [splitlines] and [strip] compute. *)

Lemma startswith_spec (p s : str) :
  startswith p s = true <-> exists post : str, s = p ++ post.
Proof.
  revert s. induction p as [|c p IH]; intros s; simpl.
  - split; [intros _; now exists s|reflexivity].
  - destruct s as [|d s].
    + split; [discriminate|intros [post H]; discriminate H].
    + rewrite andb_true_iff, N.eqb_eq, IH. split.
      * intros [-> [post ->]]. now exists post.
      * intros [post H]. injection H as -> ->. split; [reflexivity|now exists post].
Qed.

Lemma contains_spec (needle hay : str) :
  contains needle hay = true <->
  exists pre post : str, hay = pre ++ needle ++ post.
Proof.
  induction hay as [|d hay IH].
  - simpl. rewrite orb_false_r, startswith_spec. split.
    + intros [post H]. now exists [], post.
    + intros (pre & post & H). destruct pre as [|x pre]; [|discriminate H].
      now exists post.
  - cbn [contains]. rewrite orb_true_iff, startswith_spec, IH. split.
    + intros [[post H]|(pre & post & H)].
      * now exists [], post.
      * exists (d :: pre), post. now rewrite H.
    + intros (pre & post & H). destruct pre as [|x pre].
      * left. now exists post.
      * right. injection H as -> H. now exists pre, post.
Qed.

Lemma splitlines_from_one_line (n : nat) :
  forall (s cur : str),
    (List.length s <= n)%nat ->
    one_line cur ->
    Forall one_line (splitlines_from cur s).
Proof.
  induction n as [|n IH]; intros s cur Hn Hcur.
  - destruct s; [|simpl in Hn; lia].
    simpl. destruct cur; [constructor|].
    constructor; [|constructor]. now apply Forall_rev.
  - destruct s as [|c rest].
    + simpl. destruct cur; [constructor|].
      constructor; [|constructor]. now apply Forall_rev.
    + simpl in Hn. cbn [splitlines_from].
      destruct (is_linebreak c) eqn:Hc.
      * destruct rest as [|d rest'].
        -- constructor; [now apply Forall_rev|]. simpl. constructor.
        -- destruct (N.eqb c CR && N.eqb d LF)%bool.
           ++ constructor; [now apply Forall_rev|].
              apply IH; [simpl in Hn; lia|constructor].
           ++ constructor; [now apply Forall_rev|].
              apply IH; [simpl in Hn |- *; lia|constructor].
      * apply IH; [lia|]. now constructor.
Qed.

Lemma splitlines_one_line (s : str) : Forall one_line (splitlines s).
Proof.
  apply (splitlines_from_one_line (List.length s)); [lia|constructor].
Qed.

Lemma lstrip_suffix (chars s : str) :
  exists pre : str,
    s = pre ++ lstrip chars s /\
    Forall (fun c => existsb (N.eqb c) chars = true) pre.
Proof.
  induction s as [|c s IH]; simpl.
  - exists []. split; [reflexivity|constructor].
  - destruct (existsb (N.eqb c) chars) eqn:Hc.
    + destruct IH as (pre & H & Hall). exists (c :: pre).
      split; [simpl; now rewrite <- H|now constructor].
    + exists []. split; [reflexivity|constructor].
Qed.

Lemma lstrip_head (chars s : str) (c : char) :
  head (lstrip chars s) = Some c -> existsb (N.eqb c) chars = false.
Proof.
  induction s as [|d s IH]; simpl; [discriminate|].
  destruct (existsb (N.eqb d) chars) eqn:Hd; [exact IH|].
  simpl. intros H. injection H as <-. exact Hd.
Qed.

Lemma rstrip_prefix (chars s : str) :
  exists post : str,
    s = rstrip chars s ++ post /\
    Forall (fun c => existsb (N.eqb c) chars = true) post.
Proof.
  unfold rstrip.
  destruct (lstrip_suffix chars (rev s)) as (pre & H & Hall).
  exists (rev pre). split; [|now apply Forall_rev].
  rewrite <- rev_app_distr, <- H. now rewrite rev_involutive.
Qed.

Lemma rstrip_last (chars s : str) (c : char) :
  last (rstrip chars s) = Some c -> existsb (N.eqb c) chars = false.
Proof.
  unfold rstrip.
  destruct (lstrip chars (rev s)) as [|d t] eqn:E; [discriminate|].
  simpl. rewrite last_snoc. intros H. injection H as <-.
  apply (lstrip_head chars (rev s)). now rewrite E.
Qed.

(** What [strip] leaves neither starts nor ends with a character of the
    set, and is what the text has between such characters. *)
Lemma strip_spec (chars s : str) :
  (forall c : char,
      head (strip chars s) = Some c -> existsb (N.eqb c) chars = false) /\
  (forall c : char,
      last (strip chars s) = Some c -> existsb (N.eqb c) chars = false) /\
  exists pre post : str,
    s = pre ++ strip chars s ++ post /\
    Forall (fun c => existsb (N.eqb c) chars = true) pre /\
    Forall (fun c => existsb (N.eqb c) chars = true) post.
Proof.
  unfold strip.
  destruct (lstrip_suffix chars s) as (pre & Hpre & Hall1).
  destruct (rstrip_prefix chars (lstrip chars s)) as (post & Hpost & Hall2).
  split; [|split].
  - intros c Hc. apply (lstrip_head chars s).
    rewrite Hpost. destruct (rstrip chars (lstrip chars s)); [discriminate|].
    exact Hc.
  - apply rstrip_last.
  - exists pre, post. split; [|split; assumption].
    now rewrite <- Hpost.
Qed.

(** Lines that end in a newline each are the lines [splitlines] gives. *)
Lemma splitlines_from_line (l : str) :
  one_line l ->
  forall (cur rest : str),
    splitlines_from cur (l ++ LF :: rest) =
      (rev cur ++ l) :: splitlines_from [] rest.
Proof.
  induction 1 as [|c l Hc Hl IH]; intros cur rest.
  - rewrite app_nil_r. cbn [app splitlines_from].
    change (is_linebreak LF) with true. cbv iota.
    destruct rest; reflexivity.
  - cbn [app splitlines_from]. rewrite Hc, IH.
    cbn [rev]. now rewrite <- app_assoc.
Qed.

Lemma splitlines_joined (lines : list str) :
  Forall one_line lines ->
  splitlines (flat_map (fun l => l ++ [LF]) lines) = lines.
Proof.
  unfold splitlines.
  induction 1 as [|l lines Hl Hlines IH]; [reflexivity|].
  cbn [flat_map]. rewrite <- app_assoc. cbn [app].
  rewrite (splitlines_from_line l Hl). cbn [rev app]. now rewrite IH.
Qed.

(** ** Unlocking and searching *)

Section UnlockSearch.
Context {World : Type} {os : OS World}.

(** [verify_and_set_passphrase] once its listing command has run. *)
Lemma verify_and_set_passphrase_eval
      (st : St World) (cand p : str) (proc : CompletedProcess) (w1 : World) :
  path (self st) = Some p ->
  subprocess_run (argv_of (self st) [lit "ls"; lit "-q"; p]) (Some cand)
                 (world st) = (Some proc, w1) ->
  let st0 := mkSt (with_passphrase (Some cand) (self st))
                  (world st) (spawned st) in
  let inv := mkInv (argv_of (self st) [lit "ls"; lit "-q"; p]) (Some cand) in
  verify_and_set_passphrase cand st =
    if arms st w1
    then if Z.eqb (returncode proc) 0
         then (Return true, rearmed st0 w1 inv)
         else (Return false,
               mkSt (with_passphrase None (self (rearmed st0 w1 inv)))
                    (world (rearmed st0 w1 inv))
                    (spawned (rearmed st0 w1 inv)))
    else (Raise OverflowError, unarmed st0 w1 inv).
Proof.
  intros Hp Hrun. cbv zeta.
  rewrite verify_and_set_passphrase_step; cbv zeta.
  set (st0 := mkSt (with_passphrase (Some cand) (self st))
                   (world st) (spawned st)).
  assert (Ha : ls_args (self st0) = map Some [lit "ls"; lit "-q"; p]).
  { unfold ls_args; simpl. now rewrite Hp. }
  rewrite Ha, (run_cli_str st0 _ cand eq_refl).
  change (argv_of (self st0)) with (argv_of (self st)).
  change (world st0) with (world st).
  rewrite Hrun.
  change (arms st0 w1) with (arms st w1).
  destruct (arms st w1); [|reflexivity].
  destruct (Z.eqb (returncode proc) 0); reflexivity.
Qed.

(** [search] once the lock check has answered [False] and its command has
    run. *)
Lemma search_eval
      (st st0 : St World) (query p : str) (proc : CompletedProcess)
      (w1 : World) :
  is_passphrase_needed st = (Return false, st0) ->
  path (self st) = Some p ->
  subprocess_run
    (argv_of (self st) [lit "search"; lit "-q"; p; query])
    (passphrase (self st)) (world st0) = (Some proc, w1) ->
  let inv := mkInv (argv_of (self st) [lit "search"; lit "-q"; p; query])
                   (passphrase (self st)) in
  search query st =
    if arms st w1
    then (if Z.eqb (returncode proc) 0
          then Return (map slice_from_1 (splitlines (proc_stdout proc)))
          else if contains (lit "No results for that") (proc_stderr proc)
               then Return []
               else Raise (KeepassxcCliError (proc_stderr proc)),
          rearmed st0 w1 inv)
    else (Raise OverflowError, unarmed st0 w1 inv).
Proof.
  intros H Hp Hrun. cbv zeta.
  rewrite search_step, H.
  destruct (is_passphrase_needed_false st st0 H) as (Hs & _ & pw & Hpw).
  assert (Ha : search_args (self st0) query =
               map Some [lit "search"; lit "-q"; p; query]).
  { unfold search_args. now rewrite Hs, Hp. }
  rewrite Ha, (run_cli_str st0 _ pw) by now rewrite Hs.
  rewrite Hs. rewrite Hpw in Hrun |- *. rewrite Hrun.
  replace (arms st0 w1) with (arms st w1) by (unfold arms; now rewrite Hs).
  destruct (arms st w1); [|reflexivity].
  destruct (Z.eqb (returncode proc) 0); [reflexivity|].
  destruct (contains _ _); reflexivity.
Qed.

(** C2, as the code has it.  For every candidate passphrase, once the
    listing command has run (the call is [ls -q path], with the candidate
    on the standard input), and when there is no timeout or the clock
    reading plus the timeout is a [datetime]: on exit code 0 the call
    returns [True] and the candidate is cached; on any other exit code it
    returns [False] without raising, nothing is cached, and the lock check
    that follows answers [True].  When there is a timeout and the reading
    plus the timeout is no [datetime], the call raises [OverflowError],
    whatever the exit code. *)
Theorem unlock_caches_only_on_exit_zero
        (st : St World) (cand p : str) (proc : CompletedProcess)
        (w1 : World) :
  path (self st) = Some p ->
  subprocess_run (argv_of (self st) [lit "ls"; lit "-q"; p]) (Some cand)
                 (world st) = (Some proc, w1) ->
  let st' := after (verify_and_set_passphrase cand) st in
  spawned st' =
    spawned st ++
      [mkInv (argv_of (self st) [lit "ls"; lit "-q"; p]) (Some cand)] /\
  (inactivity_lock_timeout (self st) = 0 \/
   representable (fst (datetime_now w1))
                 (inactivity_lock_timeout (self st)) ->
   (returncode proc = 0 ->
    outcome (verify_and_set_passphrase cand) st = Return true /\
    passphrase (self st') = Some cand) /\
   (returncode proc <> 0 ->
    outcome (verify_and_set_passphrase cand) st = Return false /\
    passphrase (self st') = None /\
    outcome is_passphrase_needed st' = Return true)) /\
  (inactivity_lock_timeout (self st) <> 0 ->
   ~ representable (fst (datetime_now w1))
                   (inactivity_lock_timeout (self st)) ->
   outcome (verify_and_set_passphrase cand) st = Raise OverflowError).
Proof.
  intros Hp Hrun. cbv zeta. unfold outcome, after.
  rewrite (verify_and_set_passphrase_eval st cand p proc w1 Hp Hrun).
  cbv zeta.
  set (st0 := mkSt (with_passphrase (Some cand) (self st))
                   (world st) (spawned st)).
  set (inv := mkInv _ _).
  pose proof (rearmed_fields st0 w1 inv) as (_ & _ & _ & Hpw & _ & Hsp).
  simpl in Hpw, Hsp.
  split; [|split].
  - destruct (arms st w1); [|reflexivity].
    destruct (Z.eqb (returncode proc) 0); exact Hsp.
  - intros Ha. rewrite (proj2 (arms_iff st w1) Ha).
    destruct (Z.eqb_spec (returncode proc) 0) as [Hrc|Hrc]; cbn [fst snd].
    + split; [now intros _|]. now intros Hne.
    + split; [now intros H0|]. intros _. repeat split.
  - intros Hne Hr. now rewrite (arms_not st w1 Hne Hr).
Qed.

(** C5, as the code has it.  [search] raises [KeepassxcLockedDbError] when
    the lock check answers [True].  When the check answers [False] and the
    search command exits nonzero, and there is no timeout or the clock
    reading plus the timeout is a [datetime]: it returns the empty list if
    the text [No results for that] occurs in the error output, and
    otherwise raises [KeepassxcCliError] carrying the error output as the
    tool wrote it.  When there is a timeout and the reading plus the timeout
    is no [datetime], it raises [OverflowError]. *)
Theorem search_error_outcomes (st : St World) (query : str) :
  (forall st0 : St World,
      is_passphrase_needed st = (Return true, st0) ->
      search query st = (Raise KeepassxcLockedDbError, st0)) /\
  (forall (st0 : St World) (p : str) (proc : CompletedProcess) (w1 : World),
      is_passphrase_needed st = (Return false, st0) ->
      path (self st) = Some p ->
      subprocess_run
        (argv_of (self st) [lit "search"; lit "-q"; p; query])
        (passphrase (self st)) (world st0) = (Some proc, w1) ->
      returncode proc <> 0 ->
      (inactivity_lock_timeout (self st) = 0 \/
       representable (fst (datetime_now w1))
                     (inactivity_lock_timeout (self st)) ->
       ((exists pre post : str,
            proc_stderr proc = pre ++ lit "No results for that" ++ post) ->
        outcome (search query) st = Return []) /\
       ((~ exists pre post : str,
              proc_stderr proc = pre ++ lit "No results for that" ++ post) ->
        outcome (search query) st
          = Raise (KeepassxcCliError (proc_stderr proc)))) /\
      (inactivity_lock_timeout (self st) <> 0 ->
       ~ representable (fst (datetime_now w1))
                       (inactivity_lock_timeout (self st)) ->
       outcome (search query) st = Raise OverflowError)).
Proof.
  split.
  - intros st0 H. now rewrite search_step, H.
  - intros st0 p proc w1 H Hp Hrun Hrc.
    unfold outcome. rewrite (search_eval st st0 query p proc w1 H Hp Hrun).
    cbv zeta. split.
    + intros Ha. rewrite (proj2 (arms_iff st w1) Ha). cbn [fst].
      apply Z.eqb_neq in Hrc. rewrite Hrc.
      rewrite <- contains_spec.
      destruct (contains _ _); split; intros Hc;
        try reflexivity; try discriminate Hc.
      now contradict Hc.
    + intros Hne Hr. now rewrite (arms_not st w1 Hne Hr).
Qed.

(** C7, as the code has it.  When the search command exits with code 0, and
    there is no timeout or the clock reading plus the timeout is a
    [datetime], [search] returns one name per line of the standard output,
    in order, and each name is its line without the first character; for
    an output of lines that each end in a newline, the names are those
    lines without their first characters.  When there is a timeout and the
    reading plus the timeout is no [datetime], it raises
    [OverflowError]. *)
Theorem search_strips_first_character
        (st st0 : St World) (query p : str) (proc : CompletedProcess)
        (w1 : World) :
  is_passphrase_needed st = (Return false, st0) ->
  path (self st) = Some p ->
  subprocess_run
    (argv_of (self st) [lit "search"; lit "-q"; p; query])
    (passphrase (self st)) (world st0) = (Some proc, w1) ->
  returncode proc = 0 ->
  (inactivity_lock_timeout (self st) = 0 \/
   representable (fst (datetime_now w1))
                 (inactivity_lock_timeout (self st)) ->
   exists names : list str,
     outcome (search query) st = Return names /\
     List.length names = List.length (splitlines (proc_stdout proc)) /\
     (forall (i : nat) (line : str),
         splitlines (proc_stdout proc) !! i = Some line ->
         names !! i = Some (drop 1 line) /\
         (forall (c : char) (rest : str),
             line = c :: rest -> names !! i = Some rest)) /\
     (forall lines : list str,
         Forall one_line lines ->
         proc_stdout proc = flat_map (fun l => l ++ [LF]) lines ->
         names = map (drop 1) lines)) /\
  (inactivity_lock_timeout (self st) <> 0 ->
   ~ representable (fst (datetime_now w1))
                   (inactivity_lock_timeout (self st)) ->
   outcome (search query) st = Raise OverflowError).
Proof.
  intros H Hp Hrun Hrc.
  unfold outcome. rewrite (search_eval st st0 query p proc w1 H Hp Hrun).
  cbv zeta. split.
  - intros Ha. rewrite (proj2 (arms_iff st w1) Ha). cbn [fst].
    apply Z.eqb_eq in Hrc. rewrite Hrc.
    exists (map slice_from_1 (splitlines (proc_stdout proc))).
    split; [reflexivity|].
    split; [apply List.length_map|].
    split.
    + intros i line Hi.
      assert (Hn : map slice_from_1 (splitlines (proc_stdout proc)) !! i =
                   Some (drop 1 line)).
      { change (map slice_from_1) with (fmap (M:=list) slice_from_1).
        now rewrite list_lookup_fmap, Hi. }
      split; [exact Hn|].
      intros c rest ->. exact Hn.
    + intros lines Hl Hout. rewrite Hout, (splitlines_joined lines Hl).
      reflexivity.
  - intros Hne Hr. now rewrite (arms_not st w1 Hne Hr).
Qed.

End UnlockSearch.

(** ** Reading an entry *)

Section EntryDetails.
Context {World : Type} {os : OS World}.







End EntryDetails.

Section AllOrNothing.
Context {World : Type} {os : OS World}.


End AllOrNothing.

(** ** Configuration changes *)

Section Configuration.
Context {World : Type} {os : OS World}.

(** [change_path] always locks. *)
Lemma change_path_locks (st : St World) (new_path : str) (w : World) :
  outcome (change_path new_path) st = Return tt /\
  passphrase (self (after (change_path new_path) st)) = None /\
  passphrase_expires_at (self (after (change_path new_path) st)) = None /\
  outcome is_passphrase_needed
          (set_world w (after (change_path new_path) st)) = Return true.
Proof. repeat split. Qed.

(** [change_inactivity_lock_timeout] always locks. *)
Lemma change_inactivity_lock_timeout_locks
      (st : St World) (secs : Z) (w : World) :
  outcome (change_inactivity_lock_timeout secs) st = Return tt /\
  passphrase (self (after (change_inactivity_lock_timeout secs) st)) = None /\
  passphrase_expires_at
    (self (after (change_inactivity_lock_timeout secs) st)) = None /\
  outcome is_passphrase_needed
          (set_world w (after (change_inactivity_lock_timeout secs) st))
    = Return true.
Proof. repeat split. Qed.

Lemma initialize_cli_frame (st : St World) :
  lock_state (self (after initialize_cli st)) = lock_state (self st).
Proof.
  unfold initialize_cli, can_execute_cli; unfold_m; simpl.
  destruct (cli_checked (self st)); [reflexivity|].
  destruct (subprocess_run _ _ _) as [[proc|] w]; reflexivity.
Qed.

Lemma initialize_path_checked_frame (st : St World) :
  lock_state (self (after initialize_path_checked st))
    = lock_state (self st).
Proof.
  unfold initialize_path_checked; unfold_m; simpl.
  destruct (path_checked (self st)); [reflexivity|].
  destruct (path (self st)) as [q|] eqn:Hq; [|reflexivity].
  simpl. destruct (os_path_exists q (world st)); simpl; [|reflexivity].
  unfold lock_state; simpl. now rewrite Hq.
Qed.

Lemma initialize_key_file_frame (st : St World) (kf : option str) :
  lock_state (self (after (initialize_key_file kf) st))
    = lock_state (self st).
Proof.
  unfold initialize_key_file; unfold_m; simpl.
  destruct (truthy kf); [|reflexivity].
  destruct kf as [k|]; [|reflexivity].
  simpl. destruct (os_path_exists _ _); reflexivity.
Qed.

Lemma initialize_path_effect (st : St World) (p : str) :
  outcome (initialize_path p) st = Return tt /\
  lock_state (self (after (initialize_path p) st)) =
    if decide (Some p = path (self st)) then lock_state (self st)
    else (Some p, None, passphrase_expires_at (self st),
          inactivity_lock_timeout (self st)).
Proof.
  unfold initialize_path; unfold_m; simpl.
  destruct (decide (Some p = path (self st))); now split.
Qed.

Lemma after_bind {A B : Type} (m : M World A) (k : A -> M World B)
      (st : St World) :
  after (bind m k) st =
    match outcome m st with
    | Return a => after (k a) (after m st)
    | Raise _ => after m st
    end.
Proof.
  unfold after, outcome, bind. destruct (m st) as [[a|e] st1]; reflexivity.
Qed.

Lemma outcome_bind {A B : Type} (m : M World A) (k : A -> M World B)
      (st : St World) :
  outcome (bind m k) st =
    match outcome m st with
    | Return a => outcome (k a) (after m st)
    | Raise e => Raise e
    end.
Proof.
  unfold after, outcome, bind. destruct (m st) as [[a|e] st1]; reflexivity.
Qed.

(** The lock state [initialize] leaves when it gets past the check of the
    tool, and when it does not. *)
Lemma initialize_lock_state
      (st : St World) (p : str) (timeout : Z) (kf : option str) :
  let st0 := mkSt (with_inactivity_lock_timeout timeout (self st))
                  (world st) (spawned st) in
  lock_state (self (after (initialize p timeout kf) st)) =
    match outcome initialize_cli st0 with
    | Return _ =>
        if decide (Some p = path (self st))
        then (path (self st), passphrase (self st),
              passphrase_expires_at (self st), timeout)
        else (Some p, None, passphrase_expires_at (self st), timeout)
    | Raise _ =>
        (path (self st), passphrase (self st),
         passphrase_expires_at (self st), timeout)
    end.
Proof.
  cbv zeta. unfold initialize.
  rewrite after_bind.
  change (outcome (modify _) st) with (@Return unit tt).
  cbv iota.
  set (st0 := after (modify (with_inactivity_lock_timeout timeout)) st).
  change (mkSt _ _ _) with st0.
  rewrite after_bind.
  pose proof (initialize_cli_frame st0) as F1.
  destruct (outcome initialize_cli st0) as [[]|e]; [|exact F1].
  set (st1 := after initialize_cli st0) in *.
  rewrite after_bind.
  destruct (initialize_path_effect st1 p) as [O2 F2].
  rewrite O2.
  set (st2 := after (initialize_path p) st1) in *.
  rewrite after_bind.
  pose proof (initialize_path_checked_frame st2) as F3.
  destruct (outcome initialize_path_checked st2) as [[]|e].
  - rewrite initialize_key_file_frame, F3, F2.
    unfold lock_state in F1 |- *; simpl in F1.
    injection F1 as E1 E2 E3 E4. rewrite E1, E2, E3, E4.
    destruct (decide (Some p = path (self st))); reflexivity.
  - rewrite F3, F2.
    unfold lock_state in F1 |- *; simpl in F1.
    injection F1 as E1 E2 E3 E4. rewrite E1, E2, E3, E4.
    destruct (decide (Some p = path (self st))); reflexivity.
Qed.

(** [initialize] with another path locks, unless it stops at the check of
    the tool. *)
Lemma initialize_new_path_locks
      (st : St World) (p : str) (timeout : Z) (kf : option str) (w : World) :
  path (self st) <> Some p ->
  outcome initialize_cli
          (mkSt (with_inactivity_lock_timeout timeout (self st))
                (world st) (spawned st)) = Return tt ->
  let st' := after (initialize p timeout kf) st in
  path (self st') = Some p /\
  passphrase (self st') = None /\
  outcome is_passphrase_needed (set_world w st') = Return true.
Proof.
  intros Hp Hcli.
  pose proof (initialize_lock_state st p timeout kf) as L.
  cbv zeta in L. rewrite Hcli in L.
  destruct (decide (Some p = path (self st))) as [D|_]; [congruence|].
  injection L as L1 L2 L3 L4.
  cbv zeta. split; [exact L1|]. split; [exact L2|].
  unfold outcome. rewrite is_passphrase_needed_None; [reflexivity|exact L2].
Qed.

(** [initialize] with the stored path keeps the passphrase and the expiry
    and stores the timeout it is given, whether it returns or raises. *)
Lemma initialize_same_path
      (st : St World) (p : str) (timeout : Z) (kf : option str) :
  path (self st) = Some p ->
  let d' := self (after (initialize p timeout kf) st) in
  passphrase d' = passphrase (self st) /\
  passphrase_expires_at d' = passphrase_expires_at (self st) /\
  inactivity_lock_timeout d' = timeout.
Proof.
  intros Hp.
  pose proof (initialize_lock_state st p timeout kf) as L.
  cbv zeta in L.
  destruct (decide (Some p = path (self st))) as [_|D]; [|congruence].
  cbv zeta.
  destruct (outcome initialize_cli _); injection L as L1 L2 L3 L4; auto.
Qed.

(** C3, as the code has it.  [change_path] and
    [change_inactivity_lock_timeout] always forget the passphrase, and so
    does every call of [initialize] that changes the stored path, whether it
    then returns or raises; the lock check that follows answers [True],
    whatever the world is by then. *)
Theorem configuration_changes_lock (st : St World) (w : World) :
  (forall new_path : str,
      passphrase (self (after (change_path new_path) st)) = None /\
      outcome is_passphrase_needed
              (set_world w (after (change_path new_path) st)) = Return true) /\
  (forall secs : Z,
      passphrase (self (after (change_inactivity_lock_timeout secs) st))
        = None /\
      outcome is_passphrase_needed
              (set_world w (after (change_inactivity_lock_timeout secs) st))
        = Return true) /\
  (forall (p : str) (timeout : Z) (kf : option str),
      path (self (after (initialize p timeout kf) st)) <> path (self st) ->
      passphrase (self (after (initialize p timeout kf) st)) = None /\
      outcome is_passphrase_needed
              (set_world w (after (initialize p timeout kf) st))
        = Return true).
Proof.
  split; [|split].
  - intros new_path. now split.
  - intros secs. now split.
  - intros p timeout kf Hchanged.
    pose proof (initialize_lock_state st p timeout kf) as L.
    cbv zeta in L.
    assert (Hn : passphrase (self (after (initialize p timeout kf) st))
                 = None).
    { destruct (outcome initialize_cli _) as [[]|e].
      - destruct (decide (Some p = path (self st))) as [D|D];
          injection L as L1 L2 L3 L4; [congruence|exact L2].
      - injection L as L1 L2 L3 L4. congruence. }
    split; [exact Hn|].
    unfold outcome. now rewrite is_passphrase_needed_None.
Qed.

End Configuration.

(** ** When the invariant of the expiry breaks *)

Section Unarmed.
Context {World : Type} {os : OS World}.

(** C9, as the code has it.  [verify_and_set_passphrase] stores the
    candidate before it calls the tool: when the tool cannot be started,
    [KeepassxcCliNotFoundError] propagates, the candidate stays cached and
    the expiry is not re-armed.  The lock check that follows answers
    [False] exactly when the timeout is 0 or an expiry left by earlier
    activity has not passed. *)
Theorem unlock_keeps_candidate_on_spawn_failure
        (st : St World) (cand p : str) (w1 : World) :
  path (self st) = Some p ->
  subprocess_run (argv_of (self st) [lit "ls"; lit "-q"; p]) (Some cand)
                 (world st) = (None, w1) ->
  let st' :=
    mkSt (with_passphrase (Some cand) (self st)) w1
         (spawned st ++
            [mkInv (argv_of (self st) [lit "ls"; lit "-q"; p])
                   (Some cand)]) in
  verify_and_set_passphrase cand st
    = (Raise KeepassxcCliNotFoundError, st') /\
  (outcome is_passphrase_needed st' = Return false <->
   inactivity_lock_timeout (self st) = 0 \/
   exists e : datetime,
     passphrase_expires_at (self st) = Some e /\
     fst (datetime_now w1) <= e).
Proof.
  intros Hp Hrun. cbv zeta. split.
  - rewrite verify_and_set_passphrase_step; cbv zeta.
    set (st0 := mkSt (with_passphrase (Some cand) (self st))
                     (world st) (spawned st)).
    assert (Ha : ls_args (self st0) = map Some [lit "ls"; lit "-q"; p]).
    { unfold ls_args; simpl. now rewrite Hp. }
    rewrite Ha, (run_cli_str st0 _ cand eq_refl).
    change (argv_of (self st0)) with (argv_of (self st)).
    change (world st0) with (world st).
    now rewrite Hrun.
  - set (st' := mkSt _ _ _).
    destruct (Z.eq_dec (inactivity_lock_timeout (self st)) 0) as [H0|H0].
    + unfold outcome.
      rewrite (is_passphrase_needed_no_timeout st' cand eq_refl H0).
      simpl. tauto.
    + destruct (passphrase_expires_at (self st)) as [e|] eqn:He.
      * unfold outcome.
        rewrite (is_passphrase_needed_armed st' cand e eq_refl H0 He).
        simpl. destruct (datetime_now w1) as [t w2]; simpl.
        destruct (Z.gtb t e) eqn:Hgt; simpl.
        -- apply Z.gtb_lt in Hgt. split; [discriminate|].
           intros [?|(e' & [= <-] & Hle)]; [contradiction|lia].
        -- split; [|reflexivity]. intros _. right. exists e.
           split; [reflexivity|].
           rewrite Z.gtb_ltb in Hgt. apply Z.ltb_ge in Hgt. exact Hgt.
      * unfold outcome.
        rewrite (is_passphrase_needed_unarmed st' cand eq_refl H0 He).
        simpl. split; [discriminate|].
        intros [?|(e' & [=] & _)]. contradiction.
Qed.

(** C10. A session unlocked while the timeout is 0 has no expiry.  If
    [initialize] is then called with the same path and a nonzero timeout,
    it keeps the passphrase, whether it returns or raises, and the next
    lock check raises [TypeError].  The world may have changed between
    the calls. *)
Theorem lock_check_raises_after_reinitialize
        (st : St World) (cand p : str) (timeout : Z) (kf : option str)
        (w w' : World) :
  inactivity_lock_timeout (self st) = 0 ->
  passphrase_expires_at (self st) = None ->
  path (self st) = Some p ->
  outcome (verify_and_set_passphrase cand) st = Return true ->
  timeout <> 0 ->
  let st1 := set_world w (after (verify_and_set_passphrase cand) st) in
  let st2 := set_world w' (after (initialize p timeout kf) st1) in
  passphrase (self st1) = Some cand /\
  passphrase_expires_at (self st1) = None /\
  passphrase (self st2) = Some cand /\
  outcome is_passphrase_needed st2 = Raise TypeError.
Proof.
  intros H0 He Hp Hok Ht. cbv zeta.
  set (st1 := set_world w (after (verify_and_set_passphrase cand) st)).
  assert (H1 : passphrase (self st1) = Some cand /\
               passphrase_expires_at (self st1) = None /\
               path (self st1) = Some p).
  { subst st1. unfold set_world; cbn [self].
    revert Hok. unfold outcome, after.
    rewrite verify_and_set_passphrase_step; cbv zeta.
    set (st0 := mkSt (with_passphrase (Some cand) (self st))
                     (world st) (spawned st)).
    pose proof (run_cli_frame st0 (ls_args (self st0))) as F.
    unfold after in F.
    destruct (run_cli (ls_args (self st0)) st0)
      as [[[[err out] rc]|e] st1] eqn:E; [|discriminate].
    destruct F as (_ & Fp & _ & Fpw & _ & Fe).
    destruct (Z.eqb rc 0); [|discriminate].
    intros _. cbn [snd] in *.
    split; [exact Fpw|]. split; [|now rewrite Fp].
    rewrite (Fe H0). exact He. }
  destruct H1 as (Hpw1 & He1 & Hp1).
  destruct (initialize_same_path st1 p timeout kf Hp1) as (Ipw & Ie & It).
  set (st2 := set_world w' (after (initialize p timeout kf) st1)).
  assert (Hpw2 : passphrase (self st2) = Some cand)
    by (subst st2; unfold set_world; cbn [self]; congruence).
  repeat split; try assumption.
  unfold outcome.
  rewrite (is_passphrase_needed_unarmed st2 cand Hpw2).
  - reflexivity.
  - subst st2. unfold set_world; cbn [self]. congruence.
  - subst st2. unfold set_world; cbn [self]. congruence.
Qed.

End Unarmed.

(** ** The lock check, on every state where the expiry is armed *)

Section LockCheckTotal.
Context {World : Type} {os : OS World}.


(** On a state whose expiry is armed whenever it is needed, the check
    returns, and it answers [True] exactly when there is no passphrase or
    the timeout is nonzero and the clock is past the expiry. *)
Lemma lock_check_when_armed (st : St World) :
  (passphrase (self st) <> None ->
   inactivity_lock_timeout (self st) <> 0 ->
   passphrase_expires_at (self st) <> None) ->
  exists b : bool,
    outcome is_passphrase_needed st = Return b /\
    (b = true <->
     passphrase (self st) = None \/
     (inactivity_lock_timeout (self st) <> 0 /\
      exists e : datetime,
        passphrase_expires_at (self st) = Some e /\
        fst (datetime_now (world st)) > e)).
Proof.
  intros Harmed. unfold outcome.
  destruct (passphrase (self st)) as [pw|] eqn:Hpw.
  - destruct (Z.eq_dec (inactivity_lock_timeout (self st)) 0) as [H0|H0].
    + rewrite (is_passphrase_needed_no_timeout st pw Hpw H0).
      exists false. split; [reflexivity|].
      split; [discriminate|]. intros [?|[? _]]; [discriminate|contradiction].
    + destruct (passphrase_expires_at (self st)) as [e|] eqn:He.
      * rewrite (is_passphrase_needed_armed st pw e Hpw H0 He).
        destruct (datetime_now (world st)) as [t w]; simpl.
        destruct (Z.gtb t e) eqn:Hgt; simpl.
        -- exists true. split; [reflexivity|]. split; [|reflexivity].
           intros _. right. split; [exact H0|]. exists e.
           split; [reflexivity|]. now apply Z.gtb_gt.
        -- exists false. split; [reflexivity|]. split; [discriminate|].
           intros [?|[_ (e' & [= <-] & Hlt)]]; [discriminate|].
           apply Z.gtb_gt in Hlt. congruence.
      * exfalso. now apply Harmed.
  - rewrite (is_passphrase_needed_None st Hpw).
    exists true. split; [reflexivity|]. split; [now left|reflexivity].
Qed.

(** The check raises exactly on a passphrase held under a nonzero timeout
    with no expiry. *)
Lemma lock_check_raises_iff (st : St World) :
  outcome is_passphrase_needed st = Raise TypeError <->
  passphrase (self st) <> None /\
  inactivity_lock_timeout (self st) <> 0 /\
  passphrase_expires_at (self st) = None.
Proof.
  unfold outcome.
  destruct (passphrase (self st)) as [pw|] eqn:Hpw.
  - destruct (Z.eq_dec (inactivity_lock_timeout (self st)) 0) as [H0|H0].
    + rewrite (is_passphrase_needed_no_timeout st pw Hpw H0); simpl.
      split; [discriminate|]. now intros (_ & ? & _).
    + destruct (passphrase_expires_at (self st)) as [e|] eqn:He.
      * rewrite (is_passphrase_needed_armed st pw e Hpw H0 He).
        destruct (datetime_now (world st)) as [t w]; simpl.
        destruct (Z.gtb t e); simpl;
          (split; [discriminate|]); now intros (_ & _ & ?).
      * rewrite (is_passphrase_needed_unarmed st pw Hpw H0 He); simpl.
        split; [|reflexivity]. intros _. repeat split; congruence.
  - rewrite (is_passphrase_needed_None st Hpw); simpl.
    split; [discriminate|]. now intros (? & _).
Qed.


End LockCheckTotal.

(** ** Runs in the simulated world *)

(** C3 as stated fails: a session unlocked with timeout 5 and then
    initialized again with the same path and timeout 10 has a new timeout
    and still the passphrase; the lock check answers [False]. *)
Lemma reinitialize_with_new_timeout_stays_unlocked :
  let st := after (initialize db_kdbx 10 None) (unlocked 5 None) in
  outcome (initialize db_kdbx 10 None) (unlocked 5 None) = Return tt /\
  inactivity_lock_timeout (self (unlocked 5 None)) = 5 /\
  inactivity_lock_timeout (self st) = 10 /\
  passphrase (self st) = Some correct /\
  outcome is_passphrase_needed st = Return false /\
  outcome is_passphrase_needed st <> Return true.
Proof.
  cbv zeta.
  split; [vm_compute; reflexivity|].
  split; [vm_compute; reflexivity|].
  split; [vm_compute; reflexivity|].
  split; [vm_compute; reflexivity|].
  split; [vm_compute; reflexivity|].
  intros E; vm_compute in E; discriminate E.
Qed.

(** Initializing an unlocked session with the path of another database
    locks it, although that file does not exist and the call raises. *)
Lemma configuration_changes_lock_witness :
  outcome (initialize other_kdbx 0 None) (unlocked 0 None)
    = Raise (KeepassxcFileNotFoundError None) /\
  passphrase (self (after (initialize other_kdbx 0 None) (unlocked 0 None)))
    = None /\
  outcome is_passphrase_needed
          (set_world sim0 (after (initialize other_kdbx 0 None)
                                 (unlocked 0 None))) = Return true.
Proof.
  split; [vm_compute; reflexivity|].
  apply (proj2 (proj2 (configuration_changes_lock (unlocked 0 None) sim0))
               other_kdbx 0 None).
  intros E; vm_compute in E; discriminate E.
Defined.

(** With the key file configured, the listing command of an unlocked
    session is [keepassxc-cli ls -k key -q db]. *)
Lemma keyfile_spliced_after_subcommand_witness :
  cli_args (self (unlocked 0 (Some key_file)))
           (map Some [lit "ls"; lit "-q"; db_kdbx]) =
    map Some [lit "keepassxc-cli"; lit "ls"; lit "-k"; key_file; lit "-q";
              db_kdbx] /\
  spawned (after (run_cli (map Some [lit "ls"; lit "-q"; db_kdbx]))
                 (unlocked 0 (Some key_file))) =
    spawned (unlocked 0 (Some key_file)) ++
      [mkInv [lit "keepassxc-cli"; lit "ls"; lit "-k"; key_file; lit "-q";
              db_kdbx]
             (Some correct)].
Proof.
  apply (proj1 (keyfile_spliced_after_subcommand
                  (unlocked 0 (Some key_file)) correct
                  [lit "ls"; lit "-q"; db_kdbx] eq_refl)
               key_file (lit "ls") [lit "-q"; db_kdbx]).
  - vm_compute; reflexivity.
  - intros E; vm_compute in E; discriminate E.
  - reflexivity.
Defined.

(** A search of a session with timeout 5, started at second 2 and lasting
    one second, moves the expiry to second 8. *)
Lemma expiry_rearmed_by_every_invocation_witness :
  outcome (run_cli (search_args (self (unlocked 5 None)) github))
          (unlocked 5 None) =
    Return ([], lit "/Personal/GitHub" ++ [LF], 0) /\
  passphrase_expires_at
    (self (after (run_cli (search_args (self (unlocked 5 None)) github))
                 (unlocked 5 None))) =
    Some 8000000.
Proof.
  refine (proj1
    (expiry_rearmed_by_every_invocation
       (unlocked 5 None)
       (search_args (self (unlocked 5 None)) github)
       correct
       (argv_of (self (unlocked 5 None))
                [lit "search"; lit "-q"; db_kdbx; github])
       (sim_search sim0)
       (sim_tick (world (unlocked 5 None)))
       _ _ _) _ _).
  - vm_compute; reflexivity.
  - vm_compute; reflexivity.
  - vm_compute; reflexivity.
  - vm_compute; discriminate.
  - apply representable_iff. vm_compute; reflexivity.
Defined.

(** C4 as stated fails: under a timeout of a million million seconds the
    listing command is run, and the expiry it should move to the clock
    reading plus the timeout is not set at all: the sum is past the year
    9999 and the call raises [OverflowError]. *)
Lemma invocation_overflow_leaves_expiry_unset :
  let st := configured far_timeout None in
  let st' := after (verify_and_set_passphrase correct) st in
  inactivity_lock_timeout (self st) = 1000000000000 /\
  spawned st' =
    spawned st ++
      [mkInv [lit "keepassxc-cli"; lit "ls"; lit "-q"; db_kdbx]
             (Some correct)] /\
  fst (subprocess_run [lit "keepassxc-cli"; lit "ls"; lit "-q"; db_kdbx]
                      (Some correct) (world st)) = Some (mkProc [] [] 0) /\
  outcome (verify_and_set_passphrase correct) st = Raise OverflowError /\
  passphrase_expires_at (self st') = None /\
  passphrase_expires_at (self st') <>
    Some (fst (datetime_now (world st')) + 1000000000000 * 1000000).
Proof.
  cbv zeta.
  split; [vm_compute; reflexivity|].
  split; [vm_compute; reflexivity|].
  split; [vm_compute; reflexivity|].
  split; [vm_compute; reflexivity|].
  split; [vm_compute; reflexivity|].
  intros E; vm_compute in E; discriminate E.
Qed.

(** Under timeout 5 the right passphrase is accepted and cached, and a
    wrong one is refused and forgotten. *)
Lemma unlock_caches_only_on_exit_zero_witness :
  (outcome (verify_and_set_passphrase correct) (configured 5 None)
     = Return true /\
   passphrase (self (unlocked 5 None)) = Some correct) /\
  (outcome (verify_and_set_passphrase (lit "guess")) (configured 5 None)
     = Return false /\
   passphrase (self (after (verify_and_set_passphrase (lit "guess"))
                           (configured 5 None))) = None /\
   outcome is_passphrase_needed
           (after (verify_and_set_passphrase (lit "guess"))
                  (configured 5 None)) = Return true).
Proof.
  split.
  - refine (proj1 (proj1 (proj2
      (unlock_caches_only_on_exit_zero
         (configured 5 None) correct db_kdbx (mkProc [] [] 0)
         (sim_tick (world (configured 5 None))) _ _)) _) _).
    + vm_compute; reflexivity.
    + vm_compute; reflexivity.
    + right. apply representable_iff. vm_compute; reflexivity.
    + reflexivity.
  - refine (proj2 (proj1 (proj2
      (unlock_caches_only_on_exit_zero
         (configured 5 None) (lit "guess") db_kdbx
         (mkProc (lit "Invalid credentials were provided.") [] 1)
         (sim_tick (world (configured 5 None))) _ _)) _) _).
    + vm_compute; reflexivity.
    + vm_compute; reflexivity.
    + right. apply representable_iff. vm_compute; reflexivity.
    + discriminate.
Defined.

(** C2 as stated fails: under a timeout of a million million seconds a
    wrong passphrase makes the listing command exit with code 1, and the
    call does not return [False]: it raises [OverflowError].  The wrong
    candidate is still cached, and the lock check that follows raises
    [TypeError] where it should answer [True]. *)
Lemma unlock_overflow_on_refused_candidate :
  let st := configured far_timeout None in
  let st' := after (verify_and_set_passphrase (lit "guess")) st in
  fst (subprocess_run [lit "keepassxc-cli"; lit "ls"; lit "-q"; db_kdbx]
                      (Some (lit "guess")) (world st))
    = Some (mkProc (lit "Invalid credentials were provided.") [] 1) /\
  outcome (verify_and_set_passphrase (lit "guess")) st
    = Raise OverflowError /\
  outcome (verify_and_set_passphrase (lit "guess")) st <> Return false /\
  passphrase (self st') = Some (lit "guess") /\
  outcome is_passphrase_needed st' = Raise TypeError /\
  outcome is_passphrase_needed st' <> Return true.
Proof.
  cbv zeta.
  split; [vm_compute; reflexivity|].
  split; [vm_compute; reflexivity|].
  split; [intros E; vm_compute in E; discriminate E|].
  split; [vm_compute; reflexivity|].
  split; [vm_compute; reflexivity|].
  intros E; vm_compute in E; discriminate E.
Qed.

(** Under timeout 5, a search that finds nothing returns the empty list,
    and a search that fails for another reason raises with the text of the
    tool. *)
Lemma search_error_outcomes_witness :
  outcome (search github) (nothing_found (unlocked 5 None)) = Return [] /\
  outcome (search github) (search_broken (unlocked 5 None))
    = Raise (KeepassxcCliError (lit "Unable to open the database.")).
Proof.
  split.
  - refine (proj1 (proj1
      (proj2 (search_error_outcomes (nothing_found (unlocked 5 None)) github)
             (nothing_found (unlocked 5 None)) db_kdbx
             (mkProc (lit "No results for that search term.") [] 1)
             (sim_tick (world (nothing_found (unlocked 5 None))))
             _ _ _ _) _) _).
    + vm_compute; reflexivity.
    + vm_compute; reflexivity.
    + vm_compute; reflexivity.
    + vm_compute; discriminate.
    + right. apply representable_iff. vm_compute; reflexivity.
    + exists [], (lit " search term."). reflexivity.
  - refine (proj2 (proj1
      (proj2 (search_error_outcomes (search_broken (unlocked 5 None)) github)
             (search_broken (unlocked 5 None)) db_kdbx
             (mkProc (lit "Unable to open the database.") [] 1)
             (sim_tick (world (search_broken (unlocked 5 None))))
             _ _ _ _) _) _).
    + vm_compute; reflexivity.
    + vm_compute; reflexivity.
    + vm_compute; reflexivity.
    + vm_compute; discriminate.
    + right. apply representable_iff. vm_compute; reflexivity.
    + intros Hc. apply contains_spec in Hc. vm_compute in Hc.
      discriminate Hc.
Defined.

(** C5 as stated fails: a session unlocked under timeout 5 is initialized
    again with the same path and a timeout of a million million seconds;
    the search command then exits with code 1 and the error text [No
    results for that search term.], and the search does not return the
    empty list: it raises [OverflowError]. *)
Lemma search_overflow_on_no_results :
  let st := nothing_found reconfigured in
  outcome is_passphrase_needed st = Return false /\
  fst (subprocess_run
         [lit "keepassxc-cli"; lit "search"; lit "-q"; db_kdbx; github]
         (Some correct) (world st))
    = Some (mkProc (lit "No results for that search term.") [] 1) /\
  spawned (after (search github) st) =
    spawned st ++
      [mkInv [lit "keepassxc-cli"; lit "search"; lit "-q"; db_kdbx; github]
             (Some correct)] /\
  outcome (search github) st = Raise OverflowError /\
  outcome (search github) st <> Return [].
Proof.
  cbv zeta.
  split; [vm_compute; reflexivity|].
  split; [vm_compute; reflexivity|].
  split; [vm_compute; reflexivity|].
  split; [vm_compute; reflexivity|].
  intros E; vm_compute in E; discriminate E.
Qed.

(** The line [/Personal/GitHub] becomes the name [Personal/GitHub]. *)
Lemma search_strips_first_character_witness :
  outcome (search (lit "github")) (unlocked 5 None)
    = Return [lit "Personal/GitHub"].
Proof.
  assert (H1 : is_passphrase_needed (unlocked 5 None)
               = (Return false, unlocked 5 None))
    by (vm_compute; reflexivity).
  assert (H2 : path (self (unlocked 5 None)) = Some db_kdbx)
    by (vm_compute; reflexivity).
  assert (H3 : subprocess_run
                 (argv_of (self (unlocked 5 None))
                          [lit "search"; lit "-q"; db_kdbx; lit "github"])
                 (passphrase (self (unlocked 5 None)))
                 (world (unlocked 5 None))
               = (Some (sim_search sim0),
                  sim_tick (world (unlocked 5 None))))
    by (vm_compute; reflexivity).
  assert (H4 : representable
                 (fst (datetime_now (sim_tick (world (unlocked 5 None)))))
                 (inactivity_lock_timeout (self (unlocked 5 None))))
    by (apply representable_iff; vm_compute; reflexivity).
  pose proof (proj1 (search_strips_first_character
                       (unlocked 5 None) (unlocked 5 None) (lit "github")
                       db_kdbx (sim_search sim0)
                       (sim_tick (world (unlocked 5 None)))
                       H1 H2 H3 eq_refl) (or_intror H4)) as W.
  destruct W as (names & Ho & _ & _ & Hj).
  rewrite Ho. f_equal.
  apply (Hj [lit "/Personal/GitHub"]).
  - repeat constructor.
  - reflexivity.
Defined.

(** C7 as stated fails: in the session initialized again with a timeout of
    a million million seconds, the search command exits with code 0 and
    writes the line [/Personal/GitHub], and the search returns no name: it
    raises [OverflowError]. *)
Lemma search_overflow_on_results :
  outcome is_passphrase_needed reconfigured = Return false /\
  fst (subprocess_run
         [lit "keepassxc-cli"; lit "search"; lit "-q"; db_kdbx; github]
         (Some correct) (world reconfigured))
    = Some (mkProc [] (lit "/Personal/GitHub" ++ [LF]) 0) /\
  outcome (search github) reconfigured = Raise OverflowError /\
  (forall names : list str,
      outcome (search github) reconfigured <> Return names).
Proof.
  split; [vm_compute; reflexivity|].
  split; [vm_compute; reflexivity|].
  split; [vm_compute; reflexivity|].
  intros names E; vm_compute in E; discriminate E.
Qed.




(** With timeout 0 and the tool gone, a candidate nobody verified is cached
    and the session counts as unlocked. *)
Lemma unlock_keeps_candidate_on_spawn_failure_witness :
  outcome (verify_and_set_passphrase (lit "guess"))
          (tool_removed (configured 0 None))
    = Raise KeepassxcCliNotFoundError /\
  passphrase (self (after (verify_and_set_passphrase (lit "guess"))
                          (tool_removed (configured 0 None))))
    = Some (lit "guess") /\
  outcome is_passphrase_needed
          (after (verify_and_set_passphrase (lit "guess"))
                 (tool_removed (configured 0 None)))
    = Return false.
Proof.
  destruct (unlock_keeps_candidate_on_spawn_failure
              (tool_removed (configured 0 None)) (lit "guess") db_kdbx
              (world (tool_removed (configured 0 None))))
    as [Hv Hiff].
  - vm_compute; reflexivity.
  - vm_compute; reflexivity.
  - unfold outcome, after. rewrite Hv. cbn [fst snd].
    split; [reflexivity|]. split; [reflexivity|].
    apply Hiff. left. vm_compute; reflexivity.
Defined.

(** C9 as stated fails: with timeout 5 and no expiry armed yet, the
    candidate is cached just the same, but the lock check that follows
    raises [TypeError] and does not return [False]. *)
Lemma unlock_spawn_failure_then_type_error :
  let st := tool_removed (configured 5 None) in
  let st' := after (verify_and_set_passphrase (lit "guess")) st in
  outcome (verify_and_set_passphrase (lit "guess")) st
    = Raise KeepassxcCliNotFoundError /\
  passphrase (self st') = Some (lit "guess") /\
  outcome is_passphrase_needed st' = Raise TypeError /\
  outcome is_passphrase_needed st' <> Return false.
Proof.
  cbv zeta.
  split; [vm_compute; reflexivity|].
  split; [vm_compute; reflexivity|].
  split; [vm_compute; reflexivity|].
  intros E; vm_compute in E; discriminate E.
Qed.

(** Unlocked with timeout 0, initialized again with timeout 5: the lock
    check raises. *)
Lemma lock_check_raises_after_reinitialize_witness :
  passphrase (self (unlocked 0 None)) = Some correct /\
  passphrase_expires_at (self (unlocked 0 None)) = None /\
  passphrase (self (after (initialize db_kdbx 5 None) (unlocked 0 None)))
    = Some correct /\
  outcome is_passphrase_needed
          (after (initialize db_kdbx 5 None) (unlocked 0 None))
    = Raise TypeError.
Proof.
  refine (lock_check_raises_after_reinitialize
            (configured 0 None) correct db_kdbx 5 None
            (world (unlocked 0 None))
            (world (after (initialize db_kdbx 5 None) (unlocked 0 None)))
            _ _ _ _ _).
  - vm_compute; reflexivity.
  - vm_compute; reflexivity.
  - vm_compute; reflexivity.
  - vm_compute; reflexivity.
  - discriminate.
Defined.


(** * The rest of the wrapper

    What the methods do at their edges, what they keep, and how they
    compose. *)

(** ** The blocks of [initialize] *)

Section InitBlocks.
Context {World : Type} {os : OS World}.

Lemma initialize_cli_eval (st : St World) :
  initialize_cli st =
    if cli_checked (self st) then (Return tt, st)
    else
      match subprocess_run [cli (self st)] None (world st) with
      | (Some _, w) =>
          (Return tt,
           mkSt (with_cli_checked true (self st)) w
                (spawned st ++ [mkInv [cli (self st)] None]))
      | (None, w) =>
          (Raise KeepassxcCliNotFoundError,
           mkSt (self st) w (spawned st ++ [mkInv [cli (self st)] None]))
      end.
Proof.
  unfold initialize_cli, can_execute_cli; unfold_m; simpl.
  destruct (cli_checked (self st)); [reflexivity|].
  destruct (subprocess_run _ _ _) as [[proc|] w]; reflexivity.
Qed.

Lemma initialize_path_eval (p : str) (st : St World) :
  initialize_path p st =
    (Return tt,
     if decide (Some p = path (self st)) then st
     else mkSt (with_passphrase None
                  (with_path_checked false (with_path (Some p) (self st))))
               (world st) (spawned st)).
Proof.
  unfold initialize_path; unfold_m; simpl.
  destruct (decide (Some p = path (self st))); reflexivity.
Qed.

Lemma initialize_path_checked_eval (st : St World) :
  initialize_path_checked st =
    if path_checked (self st) then (Return tt, st)
    else
      match path (self st) with
      | None => (Raise TypeError, st)
      | Some q =>
          if os_path_exists q (world st)
          then (Return tt,
                mkSt (with_path_checked true (self st)) (world st) (spawned st))
          else (Raise (KeepassxcFileNotFoundError None), st)
      end.
Proof.
  unfold initialize_path_checked; unfold_m; simpl.
  destruct (path_checked (self st)); [reflexivity|].
  destruct (path (self st)) as [q|]; [|reflexivity].
  simpl. destruct (os_path_exists q (world st)); reflexivity.
Qed.

Lemma initialize_key_file_eval (kf : option str) (st : St World) :
  initialize_key_file kf st =
    match kf with
    | Some (c :: k) =>
        if os_path_exists (os_path_expanduser (c :: k) (world st)) (world st)
        then (Return tt,
              mkSt (with_key_file_path
                      (Some (os_path_expanduser (c :: k) (world st))) (self st))
                   (world st) (spawned st))
        else (Raise (KeepassxcFileNotFoundError
                       (Some (lit "Key file not found: "
                                ++ os_path_expanduser (c :: k) (world st)))), st)
    | _ =>
        (Return tt,
         mkSt (with_key_file_path None (self st)) (world st) (spawned st))
    end.
Proof.
  unfold initialize_key_file; unfold_m; simpl.
  destruct kf as [[|c k]|]; try reflexivity.
  simpl. destruct (os_path_exists _ _); reflexivity.
Qed.

Lemma initialize_eval (p : str) (timeout : Z) (kf : option str) (st : St World) :
  initialize p timeout kf st =
    match initialize_cli (mkSt (with_inactivity_lock_timeout timeout (self st))
                               (world st) (spawned st)) with
    | (Return _, st1) =>
        match initialize_path p st1 with
        | (Return _, st2) =>
            match initialize_path_checked st2 with
            | (Return _, st3) => initialize_key_file kf st3
            | (Raise e, st3) => (Raise e, st3)
            end
        | (Raise e, st2) => (Raise e, st2)
        end
    | (Raise e, st1) => (Raise e, st1)
    end.
Proof.
  unfold initialize, bind, modify; simpl.
  destruct (initialize_cli _) as [[[]|e] st1]; [|reflexivity].
  destruct (initialize_path p st1) as [[[]|e] st2]; [|reflexivity].
  destruct (initialize_path_checked st2) as [[[]|e] st3]; reflexivity.
Qed.


End InitBlocks.

(** Reads the fields of an updated object. *)
Ltac fields :=
  cbn [self world spawned fst snd
       cli cli_checked path path_checked key_file_path passphrase
       passphrase_expires_at inactivity_lock_timeout
       with_cli_checked with_path with_path_checked with_key_file_path
       with_passphrase with_passphrase_expires_at
       with_inactivity_lock_timeout] in *.

(** Runs the four blocks of [initialize], splitting on every test. *)
Ltac init_blocks :=
  repeat first
    [ rewrite initialize_eval
    | rewrite initialize_cli_eval
    | match goal with
      | |- context [initialize_key_file ?kf _] =>
          is_var kf; destruct kf as [[|? ?]|]
      end
    | rewrite initialize_path_eval
    | rewrite initialize_path_checked_eval
    | rewrite initialize_key_file_eval
    | progress fields
    | match goal with
      | |- context [if cli_checked ?d then _ else _] =>
          destruct (cli_checked d) eqn:?
      | |- context [match subprocess_run ?a ?b ?c with _ => _ end] =>
          destruct (subprocess_run a b c) as [[?|] ?] eqn:?
      | |- context [if decide ?P then _ else _] =>
          destruct (decide P)
      | |- context [if path_checked ?d then _ else _] =>
          destruct (path_checked d) eqn:?
      | |- context [match path ?d with _ => _ end] =>
          destruct (path d) eqn:?
      | |- context [if os_path_exists ?a ?b then _ else _] =>
          destruct (os_path_exists a b) eqn:?
      end ].

(** Closes a case of [initialize]: by contradiction among the tests, or by
    reading the fields. *)
Ltac init_done :=
  fields;
  try discriminate;
  try congruence;
  try (exfalso;
       match goal with
       | H : ?P -> _ |- _ =>
           let HP := fresh in
           assert (HP : P) by congruence; specialize (H HP); congruence
       end);
  repeat match goal with
         | |- context [decide ?P] => destruct (decide P); try congruence
         end;
  try match goal with
      | st : St _ |- _ =>
          destruct st as [[] ? ?]; fields; simplify_eq; reflexivity
      end.

(** ** What [initialize] raises and what it leaves *)

Section Initialize.
Context {World : Type} {os : OS World}.


(** X6.  Whatever [initialize] returns or raises, it starts at most one
    process: the bare tool, without standard input, and only while the tool
    has not been verified.  No passphrase is written to it. *)
Theorem initialize_starts_only_the_probe
        (st : St World) (p : str) (timeout : Z) (kf : option str) :
  spawned (after (initialize p timeout kf) st) =
    spawned st ++
      (if cli_checked (self st) then [] else [mkInv [cli (self st)] None]).
Proof.
  unfold after.
  init_blocks.
  all: rewrite ?app_nil_r; reflexivity.
Qed.


(** X2.  When the tool is there but no file is at the path, and the path is
    not the one verified before, [initialize] raises
    [KeepassxcFileNotFoundError] without arguments.  By then the new path and
    the timeout are stored and the tool counts as verified; the passphrase is
    forgotten if the path is another one; the key file configured before is
    still in place. *)
Theorem initialize_database_missing
        (st : St World) (p : str) (timeout : Z) (kf : option str) :
  outcome initialize_cli st = Return tt ->
  (path (self st) = Some p -> path_checked (self st) = false) ->
  os_path_exists p (world (after initialize_cli st)) = false ->
  initialize p timeout kf st =
    (Raise (KeepassxcFileNotFoundError None),
     mkSt (mkDb (cli (self st)) true (Some p) false (key_file_path (self st))
                (if decide (path (self st) = Some p)
                 then passphrase (self st) else None)
                (passphrase_expires_at (self st)) timeout)
          (world (after initialize_cli st))
          (spawned (after initialize_cli st))).
Proof.
  unfold outcome, after.
  init_blocks; intros Ho Hpc Hex; init_done.
Qed.

(** X3.  When the tool and the database file pass and the key file, after
    [expanduser], does not exist, [initialize] raises
    [KeepassxcFileNotFoundError] with the text [Key file not found: ] and the
    expanded path.  The database path is stored and verified by then, and the
    key file configured before stays in place. *)
Theorem initialize_key_file_missing
        (st : St World) (p : str) (timeout : Z) (c : char) (k : str) :
  outcome initialize_cli st = Return tt ->
  (path (self st) = Some p /\ path_checked (self st) = true) \/
    os_path_exists p (world (after initialize_cli st)) = true ->
  os_path_exists
    (os_path_expanduser (c :: k) (world (after initialize_cli st)))
    (world (after initialize_cli st)) = false ->
  initialize p timeout (Some (c :: k)) st =
    (Raise (KeepassxcFileNotFoundError
              (Some (lit "Key file not found: "
                       ++ os_path_expanduser
                            (c :: k) (world (after initialize_cli st))))),
     mkSt (mkDb (cli (self st)) true (Some p) true (key_file_path (self st))
                (if decide (path (self st) = Some p)
                 then passphrase (self st) else None)
                (passphrase_expires_at (self st)) timeout)
          (world (after initialize_cli st))
          (spawned (after initialize_cli st))).
Proof.
  unfold outcome, after.
  init_blocks; intros Ho [[Hp Hpc]|Hex] Hk; init_done.
Qed.

(** X4.  When [initialize] returns, the tool and the path are verified, the
    path and the timeout are the ones given, the key file is the expanded
    path of the one given, or [None] when none or an empty one was given, and
    the passphrase is kept exactly when the path is the one stored before; a
    key file that is stored exists, and so does the database file unless it
    was verified earlier. *)
Theorem initialize_returns
        (st : St World) (p : str) (timeout : Z) (kf : option str) :
  outcome (initialize p timeout kf) st = Return tt ->
  let st' := after (initialize p timeout kf) st in
  self st' =
    mkDb (cli (self st)) true (Some p) true
         match kf with
         | Some (c :: k) => Some (os_path_expanduser (c :: k) (world st'))
         | _ => None
         end
         (if decide (path (self st) = Some p)
          then passphrase (self st) else None)
         (passphrase_expires_at (self st)) timeout /\
  (forall k : str,
      key_file_path (self st') = Some k ->
      os_path_exists k (world st') = true) /\
  ((path (self st) = Some p /\ path_checked (self st) = true) \/
   os_path_exists p (world st') = true).
Proof.
  unfold outcome, after. cbv zeta.
  init_blocks; intros Ho; try discriminate Ho.
  all: split; [init_done|split; [intros k' Hk'; fields; congruence|]].
  all: fields; simplify_eq; auto.
Qed.

(** X5.  [initialize] returns, or raises [KeepassxcCliNotFoundError], or
    [KeepassxcFileNotFoundError] without arguments, or
    [KeepassxcFileNotFoundError] with a text about the key file, and this
    last only when a key file was given.  It raises nothing else, from any
    state and in any world. *)
Theorem initialize_raises_only_not_found
        (st : St World) (p : str) (timeout : Z) (kf : option str) :
  outcome (initialize p timeout kf) st = Return tt \/
  outcome (initialize p timeout kf) st = Raise KeepassxcCliNotFoundError \/
  outcome (initialize p timeout kf) st
    = Raise (KeepassxcFileNotFoundError None) \/
  exists (c : char) (k e : str),
    kf = Some (c :: k) /\
    outcome (initialize p timeout kf) st
      = Raise (KeepassxcFileNotFoundError
                 (Some (lit "Key file not found: " ++ e))).
Proof.
  unfold outcome.
  init_blocks; auto; try (exfalso; congruence).
  all: right; right; right; do 3 eexists; split; reflexivity.
Qed.

(** What a successful [initialize] has verified. *)
Lemma initialize_success_flags
      (st : St World) (p : str) (timeout : Z) (kf : option str) :
  outcome (initialize p timeout kf) st = Return tt ->
  cli_checked (self (after (initialize p timeout kf) st)) = true /\
  path (self (after (initialize p timeout kf) st)) = Some p /\
  path_checked (self (after (initialize p timeout kf) st)) = true.
Proof.
  unfold outcome, after.
  init_blocks; intros Ho; try discriminate Ho; fields; simplify_eq; auto.
Qed.

(** X7.  What [initialize] has verified it does not look at again.  After a
    call that returned, a later call with the same path and no key file
    returns in every world, even one without the tool and without the file,
    and starts no process; with a key file it can fail on the key file only. *)
Theorem reinitialize_skips_verified_checks
        (st : St World) (p : str) (timeout : Z) (kf : option str) :
  outcome (initialize p timeout kf) st = Return tt ->
  forall (w : World) (timeout' : Z),
    let st1 := set_world w (after (initialize p timeout kf) st) in
    initialize p timeout' None st1 =
      (Return tt,
       mkSt (with_key_file_path
               None (with_inactivity_lock_timeout timeout' (self st1)))
            w (spawned st1)) /\
    forall kf' : option str,
      spawned (after (initialize p timeout' kf') st1) = spawned st1 /\
      outcome (initialize p timeout' kf') st1
        <> Raise KeepassxcCliNotFoundError /\
      outcome (initialize p timeout' kf') st1
        <> Raise (KeepassxcFileNotFoundError None).
Proof.
  intros Ho w timeout'.
  destruct (initialize_success_flags st p timeout kf Ho) as (Hc & Hp & Hpc).
  set (st0 := after (initialize p timeout kf) st) in *.
  cbv zeta. unfold outcome, after, set_world.
  split; [|intros kf'].
  all: rewrite !initialize_eval, !initialize_cli_eval; fields.
  all: rewrite !Hc, !initialize_path_eval; fields.
  all: destruct (decide (Some p = path (self st0))) as [_|D];
    [|congruence].
  all: rewrite !initialize_path_checked_eval; fields; rewrite !Hpc.
  all: rewrite !initialize_key_file_eval; fields.
  - reflexivity.
  - destruct kf' as [[|c k]|]; fields; try (repeat split; congruence).
    destruct (os_path_exists _ _); fields; repeat split; congruence.
Qed.

End Initialize.

(** ** Sessions *)

Section Sessions.
Context {World : Type} {os : OS World}.

(** The lock check raises nothing but [TypeError]. *)
Lemma is_passphrase_needed_raises (st st1 : St World) (e : exn) :
  is_passphrase_needed st = (Raise e, st1) -> e = TypeError.
Proof.
  unfold is_passphrase_needed; unfold_m; simpl.
  destruct (passphrase (self st)); [|discriminate].
  destruct (Z.eqb _ 0); [discriminate|].
  destruct (datetime_now (world st)) as [t w]; simpl.
  destruct (passphrase_expires_at (self st)) as [x|]; simpl.
  - destruct (Z.gtb t x); discriminate.
  - congruence.
Qed.

Lemma all_str_None (l : list pyarg) : None ∈ l -> all_str l = None.
Proof.
  induction l as [|[a|] l IH]; intros Hin; simpl.
  - apply elem_of_nil in Hin. destruct Hin.
  - apply elem_of_cons in Hin as [Hin|Hin]; [discriminate|].
    now rewrite IH.
  - reflexivity.
Qed.

(** [run_cli] with an argument that is [None] starts nothing. *)
Lemma run_cli_None_arg (st : St World) (args : list pyarg) :
  None ∈ args ->
  run_cli args st = (Raise TypeError, st).
Proof.
  intros Hin.
  assert (Hall : all_str (cli_args (self st) args) = None).
  { apply all_str_None. unfold cli_args. destruct (truthy _).
    - rewrite <- (take_drop 1 args), elem_of_app in Hin.
      rewrite !elem_of_app. tauto.
    - rewrite elem_of_app. tauto. }
  unfold run_cli; unfold_m; simpl.
  destruct (passphrase (self st)); [|reflexivity].
  rewrite Hall. reflexivity.
Qed.

(** X8.  [verify_and_set_passphrase] on an object whose path was never set
    raises [TypeError] and starts no process, and the candidate stays cached.
    With timeout 0 the lock check then answers [False], and a search raises
    [TypeError], not [KeepassxcLockedDbError]. *)
Theorem unlock_without_path (st : St World) (cand : str) :
  path (self st) = None ->
  let st' := mkSt (with_passphrase (Some cand) (self st))
                  (world st) (spawned st) in
  verify_and_set_passphrase cand st = (Raise TypeError, st') /\
  (inactivity_lock_timeout (self st) = 0 ->
   forall w : World,
     outcome is_passphrase_needed (set_world w st') = Return false /\
     forall query : str,
       search query (set_world w st') = (Raise TypeError, set_world w st')).
Proof.
  intros Hp. cbv zeta. split.
  - rewrite verify_and_set_passphrase_step. cbv zeta.
    rewrite run_cli_None_arg; [reflexivity|].
    unfold ls_args; fields. rewrite Hp. set_solver.
  - intros Ht w.
    assert (Hl : is_passphrase_needed
                   (set_world w (mkSt (with_passphrase (Some cand) (self st))
                                      (world st) (spawned st)))
                 = (Return false,
                    set_world w (mkSt (with_passphrase (Some cand) (self st))
                                      (world st) (spawned st))))
      by (apply (is_passphrase_needed_no_timeout _ cand); [reflexivity|exact Ht]).
    split; [unfold outcome; now rewrite Hl|].
    intros query. rewrite search_step, Hl.
    rewrite run_cli_None_arg; [reflexivity|].
    unfold search_args, set_world; fields. rewrite Hp. set_solver.
Qed.

(** X9.  Unless the lock check answers [False], [search] and
    [get_entry_details] start no process: they raise
    [KeepassxcLockedDbError], or the [TypeError] of the lock check. *)
Theorem locked_queries_start_nothing (st : St World) :
  outcome is_passphrase_needed st <> Return false ->
  (forall query : str,
      (outcome (search query) st = Raise KeepassxcLockedDbError \/
       outcome (search query) st = Raise TypeError) /\
      spawned (after (search query) st) = spawned st) /\
  (forall entry : str,
      (outcome (get_entry_details entry) st = Raise KeepassxcLockedDbError \/
       outcome (get_entry_details entry) st = Raise TypeError) /\
      spawned (after (get_entry_details entry) st) = spawned st).
Proof.
  intros Hl.
  pose proof (is_passphrase_needed_frame st) as (Hsp & _).
  unfold outcome, after in *.
  split; [intros query; rewrite search_step
         |intros entry; rewrite get_entry_details_step].
  all: destruct (is_passphrase_needed st) as [[[]|e] st0] eqn:E;
    cbn [fst snd] in *; try congruence.
  all: split; [|exact Hsp].
  all: try (left; reflexivity).
  all: right; now rewrite (is_passphrase_needed_raises _ _ _ E).
Qed.

(** The lock check on a state that [rearmed] left under a timeout. *)
Lemma lock_check_after_rearmed
      (st : St World) (w1 w : World) (inv : Invocation) (pw : str) :
  passphrase (self st) = Some pw ->
  inactivity_lock_timeout (self st) <> 0 ->
  outcome is_passphrase_needed (set_world w (rearmed st w1 inv)) =
    Return (Z.gtb (fst (datetime_now w))
                  (fst (datetime_now w1)
                   + inactivity_lock_timeout (self st) * 1000000)).
Proof.
  intros Hpw Ht.
  destruct (rearmed_fields st w1 inv) as (_ & _ & _ & Hpw' & Hto & _).
  pose proof (rearmed_expiry st w1 inv) as Hex.
  cbv zeta in Hpw', Hto.
  destruct (Z.eqb_spec (inactivity_lock_timeout (self st)) 0) as [|_];
    [contradiction|].
  unfold outcome.
  rewrite (is_passphrase_needed_armed (set_world w (rearmed st w1 inv)) pw
             (fst (datetime_now w1)
              + inactivity_lock_timeout (self st) * 1000000)).
  - cbn [set_world world]. destruct (datetime_now w) as [t w']; cbn [fst].
    destruct (Z.gtb t _); reflexivity.
  - cbn [set_world self]. now rewrite Hpw'.
  - cbn [set_world self]. now rewrite Hto.
  - exact Hex.
Qed.

(** X10.  After an unlock that succeeded under a nonzero timeout, the clock
    reading taken after the listing command plus the timeout being a
    [datetime], the lock check answers [True] exactly when the clock is
    past that instant, the reading plus a million microseconds for each
    second of the timeout, and [False] otherwise; it does not raise.  Under
    a negative timeout it answers [True] as soon as the clock has not gone
    back. *)
Theorem unlock_window
        (st : St World) (cand p : str) (proc : CompletedProcess) (w1 : World) :
  path (self st) = Some p ->
  inactivity_lock_timeout (self st) <> 0 ->
  representable (fst (datetime_now w1)) (inactivity_lock_timeout (self st)) ->
  subprocess_run (argv_of (self st) [lit "ls"; lit "-q"; p]) (Some cand)
                 (world st) = (Some proc, w1) ->
  returncode proc = 0 ->
  forall w : World,
    outcome is_passphrase_needed
            (set_world w (after (verify_and_set_passphrase cand) st)) =
      Return (Z.gtb (fst (datetime_now w))
                    (fst (datetime_now w1)
                     + inactivity_lock_timeout (self st) * 1000000)) /\
    (inactivity_lock_timeout (self st) < 0 ->
     fst (datetime_now w1) <= fst (datetime_now w) ->
     outcome is_passphrase_needed
             (set_world w (after (verify_and_set_passphrase cand) st)) =
       Return true).
Proof.
  intros Hp Ht Hr Hrun Hrc w.
  unfold after.
  rewrite (verify_and_set_passphrase_eval st cand p proc w1 Hp Hrun).
  cbv zeta.
  rewrite (proj2 (arms_iff st w1) (or_intror Hr)), Hrc. cbn [Z.eqb snd].
  set (st0 := mkSt (with_passphrase (Some cand) (self st))
                   (world st) (spawned st)).
  rewrite (lock_check_after_rearmed st0 w1 w _ cand eq_refl Ht).
  change (inactivity_lock_timeout (self st0))
    with (inactivity_lock_timeout (self st)).
  split; [reflexivity|].
  intros Hneg Hmono. f_equal. apply Z.gtb_lt. nia.
Qed.

(** X11.  A search of an unlocked database under a nonzero timeout, the
    clock reading taken after its process plus the timeout being a
    [datetime], moves the expiry to that instant, whatever the process
    exits with: from then on the lock check answers [True] exactly past
    it, also when the search raised [KeepassxcCliError]. *)
Theorem search_extends_window
        (st st0 : St World) (query p : str) (proc : CompletedProcess)
        (w1 : World) :
  is_passphrase_needed st = (Return false, st0) ->
  path (self st) = Some p ->
  inactivity_lock_timeout (self st) <> 0 ->
  representable (fst (datetime_now w1)) (inactivity_lock_timeout (self st)) ->
  subprocess_run
    (argv_of (self st) [lit "search"; lit "-q"; p; query])
    (passphrase (self st)) (world st0) = (Some proc, w1) ->
  forall w : World,
    outcome is_passphrase_needed (set_world w (after (search query) st)) =
      Return (Z.gtb (fst (datetime_now w))
                    (fst (datetime_now w1)
                     + inactivity_lock_timeout (self st) * 1000000)).
Proof.
  intros Hl Hp Ht Hr Hrun w.
  destruct (is_passphrase_needed_false st st0 Hl) as (Hself & _ & pw & Hpw).
  unfold after.
  rewrite (search_eval st st0 query p proc w1 Hl Hp Hrun). cbv zeta.
  rewrite (proj2 (arms_iff st w1) (or_intror Hr)). cbn [snd].
  rewrite (lock_check_after_rearmed st0 w1 w _ pw);
    rewrite ?Hself; auto.
Qed.

Lemma with_expiry_id (d : KeepassxcDatabase) :
  with_passphrase_expires_at (passphrase_expires_at d) d = d.
Proof. destruct d; reflexivity. Qed.

(** [run_cli] changes no field of the object but the expiry. *)
Lemma run_cli_self (st : St World) (args : list pyarg) :
  exists e : option datetime,
    self (after (run_cli args) st) = with_passphrase_expires_at e (self st).
Proof.
  unfold run_cli; unfold_m; simpl.
  destruct (passphrase (self st)) as [pw|];
    [|eexists; symmetry; apply with_expiry_id].
  destruct (all_str (cli_args (self st) args)) as [av|];
    [|eexists; symmetry; apply with_expiry_id].
  destruct (subprocess_run av (Some pw) (world st)) as [[proc|] w1];
    [|eexists; symmetry; apply with_expiry_id].
  simpl.
  destruct (Z.eqb (inactivity_lock_timeout (self st)) 0); simpl.
  - eexists; symmetry; apply with_expiry_id.
  - destruct (datetime_now w1) as [t w2]; simpl.
    destruct (datetime_plus_seconds t _); simpl.
    + eexists; reflexivity.
    + eexists; symmetry; apply with_expiry_id.
Qed.

(** Neither does the loop of [get_entry_details]. *)
Lemma read_attrs_self (todo : list str) (entry : str) (attrs : gmap str str)
      (st : St World) :
  exists e : option datetime,
    self (after (read_attrs todo entry attrs) st)
      = with_passphrase_expires_at e (self st).
Proof.
  revert attrs st.
  induction todo as [|attr todo IH]; intros attrs st.
  - eexists; symmetry; apply with_expiry_id.
  - unfold after. rewrite read_attrs_step.
    destruct (run_cli_self st (show_args (self st) attr entry)) as [e1 H1].
    unfold after in H1.
    destruct (run_cli (show_args (self st) attr entry) st)
      as [[[[err out] rc]|e] st1]; cbn [snd] in *.
    + destruct (Z.eqb rc 0); [|now exists e1].
      destruct (IH (<[attr := strip [LF] out]> attrs) st1) as [e2 H2].
      unfold after in H2. rewrite H2, H1. now exists e2.
    + now exists e1.
Qed.

(** X12.  On an unlocked database, [search] and [get_entry_details] leave the
    passphrase as it is, whatever they return or raise.  With timeout 0 the
    lock check that follows answers [False] in every world: an error of the
    tool does not lock the database. *)
Theorem queries_keep_passphrase (st st0 : St World) :
  is_passphrase_needed st = (Return false, st0) ->
  forall query entry : str,
    let s1 := after (search query) st in
    let s2 := after (get_entry_details entry) st in
    passphrase (self st) <> None /\
    passphrase (self s1) = passphrase (self st) /\
    passphrase (self s2) = passphrase (self st) /\
    (inactivity_lock_timeout (self st) = 0 ->
     forall w : World,
       outcome is_passphrase_needed (set_world w s1) = Return false /\
       outcome is_passphrase_needed (set_world w s2) = Return false).
Proof.
  intros Hl query entry.
  destruct (is_passphrase_needed_false st st0 Hl) as (Hself & _ & pw & Hpw).
  assert (H1 : exists e, self (after (search query) st)
                         = with_passphrase_expires_at e (self st)).
  { unfold after. rewrite search_step, Hl.
    destruct (run_cli_self st0 (search_args (self st0) query)) as [e He].
    unfold after in He. rewrite Hself in He |- *.
    destruct (run_cli _ st0) as [[[[err out] rc]|x] st1]; cbn [snd] in *;
      [|now exists e].
    destruct (Z.eqb rc 0); [now exists e|].
    destruct (contains _ _); now exists e. }
  assert (H2 : exists e, self (after (get_entry_details entry) st)
                         = with_passphrase_expires_at e (self st)).
  { unfold after. rewrite get_entry_details_step, Hl.
    destruct (read_attrs_self ATTRS entry ∅ st0) as [e He].
    unfold after in He. rewrite Hself in He. now exists e. }
  destruct H1 as [e1 H1], H2 as [e2 H2]. cbv zeta.
  split; [congruence|].
  split; [now rewrite H1|]. split; [now rewrite H2|].
  intros Ht w. unfold outcome. split.
  - rewrite (is_passphrase_needed_no_timeout _ pw); [reflexivity| |];
      cbn [set_world self]; rewrite H1; assumption.
  - rewrite (is_passphrase_needed_no_timeout _ pw); [reflexivity| |];
      cbn [set_world self]; rewrite H2; assumption.
Qed.

(** X13.  After [change_path], [verify_and_set_passphrase] starts exactly one
    process: the listing command on the new path as [expanduser] gave it,
    with the key file of before and the candidate on standard input.  The
    file is not looked for first. *)
Theorem change_path_then_unlock (st : St World) (new_path cand : str) :
  spawned (after (verify_and_set_passphrase cand)
                 (after (change_path new_path) st)) =
    spawned st ++
      [mkInv (argv_of (self st)
                [lit "ls"; lit "-q";
                 os_path_expanduser new_path (world st)])
             (Some cand)].
Proof.
  set (q := os_path_expanduser new_path (world st)).
  assert (Hc : after (change_path new_path) st =
               mkSt (with_passphrase_expires_at None
                       (with_passphrase None
                          (with_path_checked false
                             (with_path (Some q) (self st)))))
                    (world st) (spawned st)) by reflexivity.
  rewrite Hc. unfold after. rewrite verify_and_set_passphrase_step.
  cbv zeta. cbn [self world spawned].
  set (st0 := mkSt (with_passphrase (Some cand) _) (world st) (spawned st)).
  change (ls_args _) with (map Some [lit "ls"; lit "-q"; q]).
  rewrite (run_cli_str st0 _ cand eq_refl).
  rewrite (argv_of_ext (self st0) (self st)) by reflexivity.
  destruct (subprocess_run _ _ _) as [[proc|] w1].
  - destruct (rearmed_fields st0 w1
                (mkInv (argv_of (self st) [lit "ls"; lit "-q"; q])
                       (Some cand))) as (_ & _ & _ & _ & _ & Hsp).
    destruct (arms st0 w1); [|reflexivity].
    destruct (Z.eqb (returncode proc) 0); cbn [snd spawned]; exact Hsp.
  - reflexivity.
Qed.

End Sessions.

(** ** What the queries return *)

Section Text.
Context {World : Type} {os : OS World}.

Lemma one_line_drop (n : nat) (s : str) : one_line s -> one_line (drop n s).
Proof. apply Forall_drop. Qed.

(** X14.  No name that [search] returns holds a line boundary. *)
Theorem search_names_single_line
        (st : St World) (query : str) (names : list str) :
  outcome (search query) st = Return names ->
  Forall one_line names.
Proof.
  unfold outcome. rewrite search_step.
  destruct (is_passphrase_needed st) as [[[]|e] st0]; try discriminate.
  destruct (run_cli _ st0) as [[[[err out] rc]|e] st1]; try discriminate.
  destruct (Z.eqb rc 0).
  - cbn [fst]. intros H. injection H as <-.
    apply Forall_map. eapply Forall_impl; [apply splitlines_one_line|].
    intros line Hl. now apply one_line_drop.
  - destruct (contains _ _); [|discriminate].
    cbn [fst]. intros H. injection H as <-. constructor.
Qed.

(** X15.  When the search command exits with a nonzero code, and there is
    no timeout or the clock reading plus the timeout is a [datetime],
    [search] returns the empty list exactly when the text [No results for
    that] occurs somewhere in the error output, and raises
    [KeepassxcCliError] with that output exactly when it does not. *)
Theorem search_empty_iff_marker
        (st st0 : St World) (query p : str) (proc : CompletedProcess)
        (w1 : World) :
  is_passphrase_needed st = (Return false, st0) ->
  path (self st) = Some p ->
  subprocess_run
    (argv_of (self st) [lit "search"; lit "-q"; p; query])
    (passphrase (self st)) (world st0) = (Some proc, w1) ->
  returncode proc <> 0 ->
  inactivity_lock_timeout (self st) = 0 \/
    representable (fst (datetime_now w1))
                  (inactivity_lock_timeout (self st)) ->
  (outcome (search query) st = Return [] <->
   exists pre post : str,
     proc_stderr proc = pre ++ lit "No results for that" ++ post) /\
  (outcome (search query) st = Raise (KeepassxcCliError (proc_stderr proc)) <->
   ~ exists pre post : str,
       proc_stderr proc = pre ++ lit "No results for that" ++ post).
Proof.
  intros Hl Hp Hrun Hrc Ha.
  assert (Hs : outcome (search query) st =
               if contains (lit "No results for that") (proc_stderr proc)
               then Return []
               else Raise (KeepassxcCliError (proc_stderr proc))).
  { unfold outcome.
    rewrite (search_eval st st0 query p proc w1 Hl Hp Hrun). cbv zeta.
    rewrite (proj2 (arms_iff st w1) Ha). cbn [fst].
    destruct (Z.eqb_spec (returncode proc) 0) as [|_]; [contradiction|].
    reflexivity. }
  rewrite Hs, <- contains_spec.
  destruct (contains _ _); intuition congruence.
Qed.

(** What the loop of [get_entry_details] returns. *)
Lemma read_attrs_returns (todo : list str) (entry : str) :
  forall (attrs m : gmap str str) (st st' : St World),
    read_attrs todo entry attrs st = (Return m, st') ->
    exists outs : list str,
      List.length outs = List.length todo /\ m = filled attrs todo outs.
Proof.
  induction todo as [|attr todo IH]; intros attrs m st st' H.
  - injection H as <- _. now exists [].
  - rewrite read_attrs_step in H.
    destruct (run_cli _ st) as [[[[err out] rc]|e] st1]; [|discriminate].
    destruct (Z.eqb rc 0); [|discriminate].
    destruct (IH _ _ _ _ H) as (outs & Hlen & ->).
    exists (out :: outs). split; [simpl; now rewrite Hlen|reflexivity].
Qed.

Lemma filled_lookup (todo : list str) :
  forall (outs : list str) (attrs : gmap str str),
    List.length outs = List.length todo ->
    (forall k : str,
        is_Some (filled attrs todo outs !! k) <->
        k ∈ todo \/ is_Some (attrs !! k)) /\
    (forall k v : str,
        filled attrs todo outs !! k = Some v ->
        attrs !! k = Some v \/ exists out : str, v = strip [LF] out).
Proof.
  induction todo as [|attr todo IH]; intros outs attrs Hlen.
  - destruct outs; [|discriminate]. simpl. split.
    + intros k. rewrite elem_of_nil. tauto.
    + intros k v H. now left.
  - destruct outs as [|out outs]; [discriminate|].
    injection Hlen as Hlen. cbn [filled].
    destruct (IH outs (<[attr := strip [LF] out]> attrs) Hlen) as [IH1 IH2].
    split.
    + intros k. rewrite IH1, elem_of_cons.
      destruct (decide (k = attr)) as [->|Hne].
      * rewrite lookup_insert_eq. split; [auto|intros _; right; eauto].
      * rewrite lookup_insert_ne by congruence. tauto.
    + intros k v H. destruct (IH2 k v H) as [H1|H1]; [|now right].
      destruct (decide (k = attr)) as [->|Hne].
      * rewrite lookup_insert_eq in H1. injection H1 as <-. right. eauto.
      * rewrite lookup_insert_ne in H1 by congruence. now left.
Qed.

(** X16.  The dict [get_entry_details] returns has the four attributes as its
    keys and no other, and none of its values starts or ends with a
    newline. *)
Theorem entry_details_keys_and_values
        (st st' : St World) (entry : str) (m : gmap str str) :
  get_entry_details entry st = (Return m, st') ->
  (forall k : str, is_Some (m !! k) <-> k ∈ ATTRS) /\
  (forall k v : str,
      m !! k = Some v -> head v <> Some LF /\ last v <> Some LF).
Proof.
  rewrite get_entry_details_step.
  destruct (is_passphrase_needed st) as [[[]|e] st0]; try discriminate.
  intros H. apply read_attrs_returns in H as (outs & Hlen & ->).
  destruct (filled_lookup ATTRS outs ∅ Hlen) as [H1 H2].
  split.
  - intros k. rewrite H1, lookup_empty. split; [intros [?|[? ?]]|]; auto.
    discriminate.
  - intros k v Hk. destruct (H2 k v Hk) as [Hk'|[out ->]].
    + rewrite lookup_empty in Hk'. discriminate.
    + destruct (strip_spec [LF] out) as (Hh & Ht & _).
      split; intros E; [apply Hh in E|apply Ht in E]; discriminate E.
Qed.

(** The lines of entries written with a slash in front. *)
Lemma entries_joined (entries : list str) :
  Forall one_line entries ->
  splitlines (flat_map (fun e => lit "/" ++ e ++ [LF]) entries)
    = map (fun e => lit "/" ++ e) entries.
Proof.
  intros H.
  rewrite <- (splitlines_joined (map (fun e => lit "/" ++ e) entries)).
  - f_equal. clear H. induction entries as [|e entries IH]; [reflexivity|].
    cbn [flat_map map]. rewrite IH. now rewrite <- !app_assoc.
  - apply Forall_map. eapply Forall_impl; [exact H|].
    intros e He. constructor; [reflexivity|exact He].
Qed.

(** X17.  [search] cuts the first character of a line and
    [get_entry_details] puts a slash in front of the name.  When the search
    command exits with code 0, and there is no timeout or the clock reading
    plus the timeout is a [datetime]: if the tool writes the entries one
    per line, each after a slash, [search] returns those entries and the
    show command for each of them is given the line the tool wrote; for any
    output, the name the show command is given is the line the tool wrote
    exactly when that line starts with a slash. *)
Theorem entry_name_round_trip
        (st st0 : St World) (query p : str) (proc : CompletedProcess)
        (w1 : World) :
  is_passphrase_needed st = (Return false, st0) ->
  path (self st) = Some p ->
  subprocess_run
    (argv_of (self st) [lit "search"; lit "-q"; p; query])
    (passphrase (self st)) (world st0) = (Some proc, w1) ->
  returncode proc = 0 ->
  inactivity_lock_timeout (self st) = 0 \/
    representable (fst (datetime_now w1))
                  (inactivity_lock_timeout (self st)) ->
  (forall entries : list str,
      Forall one_line entries ->
      proc_stdout proc = flat_map (fun e => lit "/" ++ e ++ [LF]) entries ->
      outcome (search query) st = Return entries /\
      forall (d : KeepassxcDatabase) (attr e : str),
        e ∈ entries ->
        last (show_args d attr e) = Some (Some (lit "/" ++ e)) /\
        lit "/" ++ e ∈ splitlines (proc_stdout proc)) /\
  exists names : list str,
    outcome (search query) st = Return names /\
    forall (i : nat) (line : str),
      splitlines (proc_stdout proc) !! i = Some line ->
      exists name : str,
        names !! i = Some name /\
        forall (d : KeepassxcDatabase) (attr : str),
          last (show_args d attr name) = Some (Some line) <->
          exists rest : str, line = lit "/" ++ rest.
Proof.
  intros Hl Hp Hrun Hrc Ha.
  assert (Hs : outcome (search query) st =
               Return (map slice_from_1 (splitlines (proc_stdout proc)))).
  { unfold outcome.
    rewrite (search_eval st st0 query p proc w1 Hl Hp Hrun). cbv zeta.
    rewrite (proj2 (arms_iff st w1) Ha), Hrc. reflexivity. }
  split.
  - intros entries He Hout. split.
    + rewrite Hs, Hout, (entries_joined entries He).
      f_equal. rewrite map_map. apply map_id.
    + intros d attr e Hin. split; [reflexivity|].
      rewrite Hout, (entries_joined entries He).
      apply list_elem_of_fmap. now exists e.
  - exists (map slice_from_1 (splitlines (proc_stdout proc))).
    split; [exact Hs|].
    intros i line Hi. exists (slice_from_1 line). split.
    + now rewrite list_lookup_fmap, Hi.
    + intros d attr. unfold show_args. cbn [last].
      unfold slice_from_1. split.
      * intros H. injection H as H. exists (drop 1 line).
        symmetry. exact H.
      * intros [rest ->]. reflexivity.
Qed.

End Text.

(** ** Histories *)

Section Histories.
Context {World : Type} {os : OS World}.

Lemma quiet_refl (st : St World) : quiet st st.
Proof.
  split; [reflexivity|]. split; [now left|].
  exists []. now rewrite app_nil_r.
Qed.

Lemma tool_call_weaken (tool : str) (pw pw' : option str) (inv : Invocation) :
  pw' = pw \/ pw' = None ->
  tool_call tool pw' inv -> tool_call tool pw inv.
Proof.
  intros Hpw (H1 & H2 & H3). split; [exact H1|]. split; [exact H2|].
  destruct H3 as [H3|H3]; [now left|].
  destruct Hpw as [->| ->]; [now right|now left].
Qed.

Lemma quiet_trans (st1 st2 st3 : St World) :
  quiet st1 st2 -> quiet st2 st3 -> quiet st1 st3.
Proof.
  intros (C1 & P1 & n1 & S1 & F1) (C2 & P2 & n2 & S2 & F2).
  split; [congruence|]. split.
  { destruct P2 as [P2|P2]; [rewrite P2; exact P1|now right]. }
  exists (n1 ++ n2). split; [now rewrite S2, S1, app_assoc|].
  apply Forall_app. split; [exact F1|].
  replace (cli (self st1)) with (cli (self st2))
    by (unfold configuration in C1; congruence).
  eapply Forall_impl; [exact F2|].
  intros inv. now apply tool_call_weaken.
Qed.

Lemma cli_args_head (d : KeepassxcDatabase) (args : list pyarg)
      (av : list str) :
  all_str (cli_args d args) = Some av -> head av = Some (cli d).
Proof.
  unfold cli_args. destruct (truthy _); simpl;
    destruct (all_str _); intros H; simplify_eq; reflexivity.
Qed.

(** A step that starts one process. *)
Lemma quiet_one (st : St World) (d : KeepassxcDatabase) (w : World)
      (inv : Invocation) :
  configuration d = configuration (self st) ->
  passphrase d = passphrase (self st) ->
  tool_call (cli (self st)) (passphrase (self st)) inv ->
  quiet st (mkSt d w (spawned st ++ [inv])).
Proof.
  intros C P T. split; [exact C|]. split; [now left|].
  exists [inv]. split; [reflexivity|]. now constructor.
Qed.

(** A step that starts none. *)
Lemma quiet_none (st : St World) (d : KeepassxcDatabase) (w : World) :
  configuration d = configuration (self st) ->
  passphrase d = passphrase (self st) \/ passphrase d = None ->
  quiet st (mkSt d w (spawned st)).
Proof.
  intros C P. split; [exact C|]. split; [exact P|].
  exists []. now rewrite app_nil_r.
Qed.

Lemma run_cli_quiet (st : St World) (args : list pyarg) :
  quiet st (after (run_cli args) st).
Proof.
  unfold run_cli; unfold_m; simpl.
  destruct (passphrase (self st)) as [pw|] eqn:Hpw; [|apply quiet_refl].
  destruct (all_str (cli_args (self st) args)) as [av|] eqn:Hav;
    [|apply quiet_refl].
  apply cli_args_head in Hav.
  assert (T : tool_call (cli (self st)) (passphrase (self st))
                        (mkInv av (Some pw))).
  { split; [exact Hav|]. split; [discriminate|]. right. now rewrite Hpw. }
  destruct (subprocess_run av (Some pw) (world st)) as [[proc|] w1]; simpl.
  - destruct (Z.eqb (inactivity_lock_timeout (self st)) 0); simpl.
    + now apply quiet_one.
    + destruct (datetime_now w1) as [t w2]; simpl.
      destruct (datetime_plus_seconds t _); simpl; now apply quiet_one.
  - now apply quiet_one.
Qed.

Lemma is_passphrase_needed_quiet (st : St World) :
  quiet st (after is_passphrase_needed st).
Proof.
  unfold is_passphrase_needed; unfold_m; simpl.
  destruct (passphrase (self st)); [|apply quiet_refl].
  destruct (Z.eqb _ 0); [apply quiet_refl|].
  destruct (datetime_now (world st)) as [t w]; simpl.
  destruct (passphrase_expires_at (self st)) as [x|]; simpl.
  - destruct (Z.gtb t x); simpl; apply quiet_none; auto.
  - apply quiet_none; auto.
Qed.

Lemma can_execute_cli_quiet (st : St World) :
  quiet st (after can_execute_cli st).
Proof.
  unfold can_execute_cli; unfold_m; simpl.
  destruct (subprocess_run _ _ _) as [[proc|] w]; simpl.
  all: apply quiet_one; [reflexivity|reflexivity|].
  all: split; [reflexivity|]; split; [reflexivity|now left].
Qed.

Lemma read_attrs_quiet (todo : list str) (entry : str) :
  forall (attrs : gmap str str) (st : St World),
    quiet st (after (read_attrs todo entry attrs) st).
Proof.
  induction todo as [|attr todo IH]; intros attrs st.
  - apply quiet_refl.
  - unfold after. rewrite read_attrs_step.
    pose proof (run_cli_quiet st (show_args (self st) attr entry)) as Q.
    unfold after in Q.
    destruct (run_cli _ st) as [[[[err out] rc]|e] st1]; cbn [snd] in *;
      [|exact Q].
    destruct (Z.eqb rc 0); [|exact Q].
    eapply quiet_trans; [exact Q|]. apply IH.
Qed.

Lemma search_quiet (st : St World) (query : str) :
  quiet st (after (search query) st).
Proof.
  unfold after. rewrite search_step.
  pose proof (is_passphrase_needed_quiet st) as Q0. unfold after in Q0.
  destruct (is_passphrase_needed st) as [[[]|e] st0]; cbn [snd] in *;
    try exact Q0.
  pose proof (run_cli_quiet st0 (search_args (self st0) query)) as Q.
  unfold after in Q.
  destruct (run_cli _ st0) as [[[[err out] rc]|e] st1]; cbn [snd] in *.
  - destruct (Z.eqb rc 0); [|destruct (contains _ _)]; cbn [snd];
      exact (quiet_trans _ _ _ Q0 Q).
  - exact (quiet_trans _ _ _ Q0 Q).
Qed.

Lemma get_entry_details_quiet (st : St World) (entry : str) :
  quiet st (after (get_entry_details entry) st).
Proof.
  unfold after. rewrite get_entry_details_step.
  pose proof (is_passphrase_needed_quiet st) as Q0. unfold after in Q0.
  destruct (is_passphrase_needed st) as [[[]|e] st0]; cbn [snd] in *;
    try exact Q0.
  eapply quiet_trans; [exact Q0|]. apply read_attrs_quiet.
Qed.

Lemma sound_more (given given' : list str) (st : St World) :
  given ⊆ given' -> sound given st -> sound given' st.
Proof.
  intros Hsub (H & Hp & HF). split; [exact H|]. split.
  - intros pw Hpw. apply Hsub, Hp, Hpw.
  - eapply Forall_impl; [exact HF|].
    intros inv (H1 & H2 & H3). split; [exact H1|]. split; [exact H2|].
    intros pw Hpw. apply Hsub, H3, Hpw.
Qed.

Lemma quiet_sound (given : list str) (st st' : St World) :
  quiet st st' -> sound given st -> sound given st'.
Proof.
  intros (C & P & new & S & F) ((H1 & H2 & H3) & Hp & HF).
  unfold configuration in C. injection C as C1 C2 C3 C4 C5 C6.
  split; [|split].
  - unfold consistent. rewrite C1, C2, C3, C4, C5. auto.
  - intros pw Hpw. destruct P as [P|P]; [|congruence].
    apply Hp. now rewrite <- P.
  - rewrite S. apply Forall_app. split; [exact HF|].
    eapply Forall_impl; [exact F|].
    intros inv (T1 & T2 & T3). rewrite H1 in T1, T2.
    split; [exact T1|]. split; [exact T2|].
    intros pw Hpw. apply Hp. destruct T3 as [T3|T3]; congruence.
Qed.

Lemma verify_and_set_passphrase_sound (given : list str) (st : St World)
      (pw : str) :
  sound given st ->
  sound (pw :: given) (after (verify_and_set_passphrase pw) st).
Proof.
  intros (H & Hp & HF).
  unfold after. rewrite verify_and_set_passphrase_step. cbv zeta.
  set (st0 := mkSt _ (world st) (spawned st)).
  assert (S0 : sound (pw :: given) st0).
  { split; [exact H|]. split.
    - intros pw' Hpw'. injection Hpw' as <-. apply elem_of_cons. now left.
    - eapply Forall_impl; [exact HF|].
      intros inv (H1 & H2 & H3). split; [exact H1|]. split; [exact H2|].
      intros pw' Hpw'. apply elem_of_cons. right. apply H3, Hpw'. }
  pose proof (run_cli_quiet st0 (ls_args (self st0))) as Q.
  unfold after in Q.
  destruct (run_cli _ st0) as [[[[err out] rc]|e] st1]; cbn [snd] in *.
  - destruct (Z.eqb rc 0); cbn [snd].
    + exact (quiet_sound _ _ _ Q S0).
    + apply (quiet_sound _ st1); [|exact (quiet_sound _ _ _ Q S0)].
      apply quiet_none; [reflexivity|now right].
  - exact (quiet_sound _ _ _ Q S0).
Qed.

Lemma initialize_sound (given : list str) (st : St World) (p : str)
      (timeout : Z) (kf : option str) :
  sound given st -> sound given (after (initialize p timeout kf) st).
Proof.
  intros ((H1 & H2 & H3) & Hp & HF). unfold after.
  assert (Hprobe : Forall (fun inv =>
            head (argv inv) = Some (lit "keepassxc-cli") /\
            (input inv = None -> argv inv = [lit "keepassxc-cli"]) /\
            (forall pw : str, input inv = Some pw -> pw ∈ given))
                          (spawned st ++ [mkInv [cli (self st)] None])).
  { apply Forall_app. split; [exact HF|]. constructor; [|constructor].
    rewrite H1. split; [reflexivity|]. split; [reflexivity|discriminate]. }
  init_blocks.
  all: split; [unfold consistent; fields
              |split; [fields; try discriminate; try exact Hp
                      |fields; assumption]].
  all: repeat split; try congruence; try tauto.
  all: intros; try congruence; try tauto.
  all: intuition congruence.
Qed.

Lemma change_path_sound (given : list str) (st : St World) (new_path : str) :
  sound given st -> sound given (after (change_path new_path) st).
Proof.
  intros ((H1 & H2 & H3) & Hp & HF). unfold change_path; unfold_m; simpl.
  split; [|split; [discriminate|exact HF]]. unfold consistent; simpl.
  split; [exact H1|]. split; [discriminate|exact H3].
Qed.

Lemma change_inactivity_lock_timeout_sound
      (given : list str) (st : St World) (secs : Z) :
  sound given st ->
  sound given (after (change_inactivity_lock_timeout secs) st).
Proof.
  intros (H & Hp & HF). unfold change_inactivity_lock_timeout; unfold_m; simpl.
  split; [exact H|]. split; [discriminate|exact HF].
Qed.

Lemma perform_sound (given : list str) (c : call World) (st : St World) :
  sound given st -> sound (supplied c ++ given) (perform c st).
Proof.
  destruct c; cbn [perform supplied app].
  - apply initialize_sound.
  - apply change_path_sound.
  - apply change_inactivity_lock_timeout_sound.
  - apply quiet_sound, is_passphrase_needed_quiet.
  - apply verify_and_set_passphrase_sound.
  - apply quiet_sound, search_quiet.
  - apply quiet_sound, get_entry_details_quiet.
  - apply quiet_sound, can_execute_cli_quiet.
  - apply quiet_sound, run_cli_quiet.
  - intros H. exact H.
Qed.

Lemma supplied_elem (cs : list (call World)) (pw : str) :
  pw ∈ List.concat (map supplied cs) <-> VerifyAndSetPassphrase pw ∈ cs.
Proof.
  induction cs as [|c cs IH]; simpl.
  - now rewrite !elem_of_nil.
  - rewrite elem_of_app, elem_of_cons, IH.
    assert (Hc : pw ∈ supplied c <-> VerifyAndSetPassphrase pw = c).
    { destruct c; simpl; rewrite ?elem_of_nil, ?list_elem_of_singleton;
        split; intros H; try discriminate H; try contradiction.
      - now subst.
      - now injection H. }
    rewrite Hc. tauto.
Qed.

Lemma foldl_perform_sound (cs : list (call World)) :
  forall (given : list str) (st : St World),
    sound given st ->
    sound (List.concat (map supplied cs) ++ given)
          (foldl (fun st c => perform c st) st cs).
Proof.
  induction cs as [|c cs IH]; intros given st H; [exact H|].
  simpl. apply (sound_more (List.concat (map supplied cs) ++ supplied c ++ given)).
  - intros x. rewrite !elem_of_app. tauto.
  - apply IH. now apply perform_sound.
Qed.

Lemma history_sound (cs : list (call World)) (w : World) :
  sound (List.concat (map supplied cs)) (history cs w).
Proof.
  unfold history.
  rewrite <- (app_nil_r (List.concat (map supplied cs))).
  apply foldl_perform_sound.
  split; [|split; [discriminate|constructor]].
  split; [reflexivity|]. split; [discriminate|]. intros H. now contradict H.
Qed.

(** X18.  After any calls of the methods on a new object, in any worlds: the
    tool is still [keepassxc-cli]; a path counted as verified is set and
    was verified after the tool; a key file is stored only once the tool is
    verified. *)
Theorem reachable_objects_are_consistent (cs : list (call World)) (w : World) :
  let d := self (history cs w) in
  cli d = lit "keepassxc-cli" /\
  (path_checked d = true -> cli_checked d = true /\ path d <> None) /\
  (key_file_path d <> None -> cli_checked d = true).
Proof. exact (proj1 (history_sound cs w)). Qed.

(** X19.  After any calls of the methods on a new object, every process that
    was started is [keepassxc-cli], and one without standard input is the
    bare tool without arguments. *)
Theorem only_the_tool_is_started (cs : list (call World)) (w : World) :
  forall inv : Invocation,
    inv ∈ spawned (history cs w) ->
    head (argv inv) = Some (lit "keepassxc-cli") /\
    (input inv = None -> argv inv = [lit "keepassxc-cli"]).
Proof.
  intros inv Hin.
  pose proof (proj2 (proj2 (history_sound cs w))) as HF.
  rewrite Forall_forall in HF. destruct (HF inv Hin) as (H1 & H2 & _).
  now split.
Qed.

(** X20.  After any calls of the methods on a new object, the cached
    passphrase and every text written to the standard input of a process is
    a passphrase that was handed to [verify_and_set_passphrase]. *)
Theorem only_supplied_passphrases_are_used
        (cs : list (call World)) (w : World) :
  (forall pw : str,
      passphrase (self (history cs w)) = Some pw ->
      VerifyAndSetPassphrase pw ∈ cs) /\
  (forall (inv : Invocation) (pw : str),
      inv ∈ spawned (history cs w) ->
      input inv = Some pw ->
      VerifyAndSetPassphrase pw ∈ cs).
Proof.
  destruct (history_sound cs w) as (_ & Hp & HF). split.
  - intros pw Hpw. apply supplied_elem, Hp, Hpw.
  - intros inv pw Hin Hpw. rewrite Forall_forall in HF.
    destruct (HF inv Hin) as (_ & _ & H3). apply supplied_elem, H3, Hpw.
Qed.

End Histories.

(** ** Rendering *)

(** X21.  [search_results] never gives an empty list, whatever the limit,
    zero and negative ones included. *)
Theorem search_results_never_empty
        (keyword arg : str) (entries : list str) (max_items : Z) :
  search_results keyword arg entries max_items <> [].
Proof.
  unfold search_results. destruct entries as [|e es]; [discriminate|].
  destruct (Z.gtb_spec (Z.of_nat (List.length (e :: es))) max_items) as [H|H].
  - intros E. apply app_eq_nil in E as [_ E]. discriminate E.
  - rewrite app_nil_r. unfold slice_to.
    cbn [List.length] in H.
    destruct (Z.ltb_spec max_items 0) as [H0|H0]; [lia|].
    destruct (Z.to_nat max_items) eqn:E; [lia|]. discriminate.
Qed.

(** X22.  With entries and a limit that is not negative: when the entries
    fit, the items are the entries, in order; when they do not, the items
    are the first [max_items] entries, in order, and one more item that
    announces how many are left out, a positive number. *)
Theorem search_results_accounts_for_all
        (keyword arg : str) (entries : list str) (max_items : Z) :
  entries <> [] ->
  0 <= max_items ->
  let n := Z.of_nat (List.length entries) in
  let items := search_results keyword arg entries max_items in
  (n <= max_items -> items = map (entry_item keyword arg) entries) /\
  (max_items < n ->
   items = map (entry_item keyword arg) (take (Z.to_nat max_items) entries)
             ++ [item_more_results_available (n - max_items)] /\
   Z.of_nat (List.length items) = max_items + 1 /\
   0 < n - max_items).
Proof.
  intros Hne Hmax. cbv zeta. unfold search_results.
  destruct entries as [|e es]; [contradiction|].
  set (l := e :: es) in *.
  assert (Hs : slice_to max_items l = take (Z.to_nat max_items) l).
  { unfold slice_to. destruct (Z.ltb_spec max_items 0); [lia|reflexivity]. }
  rewrite Hs.
  destruct (Z.gtb_spec (Z.of_nat (List.length l)) max_items) as [H|H].
  - split; [lia|]. intros _. split; [reflexivity|]. split; [|lia].
    rewrite List.length_app, List.length_map, length_take.
    cbn [List.length]. lia.
  - split; [|lia]. intros _. rewrite app_nil_r.
    rewrite take_ge; [reflexivity|]. lia.
Qed.

(** X23.  With a negative limit the slice counts from the end: the last
    entries are dropped, and the item that follows announces more entries
    than are left out. *)
Theorem search_results_negative_limit
        (keyword arg : str) (entries : list str) (max_items : Z) :
  entries <> [] ->
  max_items < 0 ->
  let n := Z.of_nat (List.length entries) in
  let shown := take (Z.to_nat (n + max_items)) entries in
  search_results keyword arg entries max_items =
    map (entry_item keyword arg) shown
      ++ [item_more_results_available (n - max_items)] /\
  n - Z.of_nat (List.length shown) < n - max_items.
Proof.
  intros Hne Hmax. cbv zeta. unfold search_results.
  destruct entries as [|e es]; [contradiction|].
  set (l := e :: es) in *.
  unfold slice_to. destruct (Z.ltb_spec max_items 0); [|lia].
  destruct (Z.gtb_spec (Z.of_nat (List.length l)) max_items) as [H'|H'];
    [|lia].
  split; [reflexivity|]. rewrite length_take. lia.
Qed.

Lemma active_item_empty (details : gmap str str) (attr attr_nice : str) :
  match default [] (details !! attr) with
  | [] => []
  | c :: v => [active_item attr attr_nice (c :: v)]
  end = [] <->
  details !! attr = None \/ details !! attr = Some [].
Proof.
  destruct (details !! attr) as [[|c v]|]; cbn [default from_option id].
  - split; auto.
  - split; [discriminate|]. intros [H|H]; discriminate H.
  - split; auto.
Qed.

(** X24.  [active_entry] offers to copy the values that are set and not
    empty, in the order Password, UserName, URL, Notes; its list is empty
    exactly when no attribute has a value. *)
Theorem active_entry_copies_what_is_set (details : gmap str str) :
  flat_map copied (active_entry details) =
    filter (fun v => v <> [])
           (map (fun attr => default [] (details !! attr))
                [lit "Password"; lit "UserName"; lit "URL"; lit "Notes"]) /\
  (active_entry details = [] <->
   forall attr : str,
     attr ∈ ATTRS -> details !! attr = None \/ details !! attr = Some []).
Proof.
  split.
  - unfold active_entry, ACTIVE_ATTRS. cbn [flat_map map].
    destruct (details !! lit "Password") as [[|c1 v1]|];
      destruct (details !! lit "UserName") as [[|c2 v2]|];
      destruct (details !! lit "URL") as [[|c3 v3]|];
      destruct (details !! lit "Notes") as [[|c4 v4]|];
      reflexivity.
  - unfold active_entry, ACTIVE_ATTRS, ATTRS. cbn [flat_map].
    rewrite !app_nil.
    rewrite !(active_item_empty details).
    split.
    + intros (H1 & H2 & H3 & H4 & _) attr Hin.
      repeat (apply elem_of_cons in Hin as [->|Hin]); try assumption.
      apply elem_of_nil in Hin. contradiction.
    + intros H. repeat split; apply H; rewrite !elem_of_cons; auto.
Qed.

(** ** More runs in the simulated world *)


(** A new object pointed at a path without a file. *)
Lemma initialize_database_missing_witness :
  initialize other_kdbx 5 None fresh =
    (Raise (KeepassxcFileNotFoundError None),
     mkSt (mkDb (cli (self fresh)) true (Some other_kdbx) false
                (key_file_path (self fresh))
                (if decide (path (self fresh) = Some other_kdbx)
                 then passphrase (self fresh) else None)
                (passphrase_expires_at (self fresh)) 5)
          (world (after initialize_cli fresh))
          (spawned (after initialize_cli fresh))).
Proof.
  refine (initialize_database_missing fresh other_kdbx 5 None _ _ _).
  - vm_compute; reflexivity.
  - intros E; vm_compute in E; discriminate E.
  - vm_compute; reflexivity.
Defined.

(** A new object given a key file that does not exist. *)
Lemma initialize_key_file_missing_witness :
  initialize db_kdbx 5 (Some missing_key) fresh =
    (Raise (KeepassxcFileNotFoundError
              (Some (lit "Key file not found: "
                       ++ os_path_expanduser
                            missing_key (world (after initialize_cli fresh))))),
     mkSt (mkDb (cli (self fresh)) true (Some db_kdbx) true
                (key_file_path (self fresh))
                (if decide (path (self fresh) = Some db_kdbx)
                 then passphrase (self fresh) else None)
                (passphrase_expires_at (self fresh)) 5)
          (world (after initialize_cli fresh))
          (spawned (after initialize_cli fresh))).
Proof.
  refine (initialize_key_file_missing
            fresh db_kdbx 5 47%N (lit "home/u/none.key") _ _ _).
  - vm_compute; reflexivity.
  - right. vm_compute; reflexivity.
  - vm_compute; reflexivity.
Defined.

(** A new object configured with the database and its key file. *)
Lemma initialize_returns_witness :
  self (configured 5 (Some key_file)) =
    mkDb (lit "keepassxc-cli") true (Some db_kdbx) true (Some key_file)
         None None 5.
Proof.
  assert (H : outcome (initialize db_kdbx 5 (Some key_file)) fresh = Return tt)
    by (vm_compute; reflexivity).
  unfold configured.
  rewrite (proj1 (initialize_returns fresh db_kdbx 5 (Some key_file) H)).
  vm_compute; reflexivity.
Defined.

(** Once configured, the object is initialized again in a world without
    the tool and without any file, and the call returns. *)
Lemma reinitialize_skips_verified_checks_witness :
  initialize db_kdbx 9 None (set_world bare (configured 5 None)) =
    (Return tt,
     mkSt (with_key_file_path
             None
             (with_inactivity_lock_timeout
                9 (self (set_world bare (configured 5 None)))))
          bare (spawned (set_world bare (configured 5 None)))).
Proof.
  refine (proj1 (reinitialize_skips_verified_checks
                   fresh db_kdbx 5 None _ bare 9)).
  vm_compute; reflexivity.
Defined.

(** A guess handed to a new object, before any [initialize]. *)
Lemma unlock_without_path_witness :
  verify_and_set_passphrase (lit "guess") fresh =
    (Raise TypeError,
     mkSt (with_passphrase (Some (lit "guess")) (self fresh))
          (world fresh) (spawned fresh)) /\
  outcome is_passphrase_needed
          (set_world sim0
             (mkSt (with_passphrase (Some (lit "guess")) (self fresh))
                   (world fresh) (spawned fresh))) = Return false.
Proof.
  split.
  - exact (proj1 (unlock_without_path fresh (lit "guess") eq_refl)).
  - exact (proj1 (proj2 (unlock_without_path fresh (lit "guess") eq_refl)
                        eq_refl sim0)).
Defined.

(** A search of a configured database that was never unlocked. *)
Lemma locked_queries_start_nothing_witness :
  (outcome (search github) (configured 0 None) = Raise KeepassxcLockedDbError \/
   outcome (search github) (configured 0 None) = Raise TypeError) /\
  spawned (after (search github) (configured 0 None))
    = spawned (configured 0 None).
Proof.
  refine (proj1 (locked_queries_start_nothing (configured 0 None) _) github).
  intros E; vm_compute in E; discriminate E.
Defined.

(** Unlocked at second 2 with timeout 5: the lock check answers [False] at
    second 7 and [True] one microsecond later. *)
Lemma unlock_window_witness :
  outcome is_passphrase_needed
          (set_world (at_time 7000000 sim0)
                     (after (verify_and_set_passphrase correct)
                            (configured 5 None))) = Return false /\
  outcome is_passphrase_needed
          (set_world (at_time 7000001 sim0)
                     (after (verify_and_set_passphrase correct)
                            (configured 5 None))) = Return true.
Proof.
  assert (H1 : path (self (configured 5 None)) = Some db_kdbx)
    by (vm_compute; reflexivity).
  assert (H2 : inactivity_lock_timeout (self (configured 5 None)) <> 0)
    by (vm_compute; discriminate).
  assert (H3 : representable
                 (fst (datetime_now (sim_tick (world (configured 5 None)))))
                 (inactivity_lock_timeout (self (configured 5 None))))
    by (apply representable_iff; vm_compute; reflexivity).
  assert (H4 : subprocess_run
                 (argv_of (self (configured 5 None))
                          [lit "ls"; lit "-q"; db_kdbx])
                 (Some correct) (world (configured 5 None))
               = (Some (mkProc [] [] 0),
                  sim_tick (world (configured 5 None))))
    by (vm_compute; reflexivity).
  split.
  - rewrite (proj1 (unlock_window (configured 5 None) correct db_kdbx
                                  (mkProc [] [] 0)
                                  (sim_tick (world (configured 5 None)))
                                  H1 H2 H3 H4 eq_refl (at_time 7000000 sim0))).
    vm_compute; reflexivity.
  - rewrite (proj1 (unlock_window (configured 5 None) correct db_kdbx
                                  (mkProc [] [] 0)
                                  (sim_tick (world (configured 5 None)))
                                  H1 H2 H3 H4 eq_refl (at_time 7000001 sim0))).
    vm_compute; reflexivity.
Defined.

(** A search that finds nothing at second 2, over at second 3, extends the
    window to second 8 all the same. *)
Lemma search_extends_window_witness :
  outcome is_passphrase_needed
          (set_world (at_time 8000000 sim0)
                     (after (search github)
                            (nothing_found (unlocked 5 None))))
    = Return false /\
  outcome is_passphrase_needed
          (set_world (at_time 8000001 sim0)
                     (after (search github)
                            (nothing_found (unlocked 5 None))))
    = Return true.
Proof.
  assert (H1 : is_passphrase_needed (nothing_found (unlocked 5 None))
               = (Return false, nothing_found (unlocked 5 None)))
    by (vm_compute; reflexivity).
  assert (H2 : path (self (nothing_found (unlocked 5 None))) = Some db_kdbx)
    by (vm_compute; reflexivity).
  assert (H3 : inactivity_lock_timeout
                 (self (nothing_found (unlocked 5 None))) <> 0)
    by (vm_compute; discriminate).
  assert (H4 : representable
                 (fst (datetime_now
                         (sim_tick (world (nothing_found (unlocked 5 None))))))
                 (inactivity_lock_timeout
                    (self (nothing_found (unlocked 5 None)))))
    by (apply representable_iff; vm_compute; reflexivity).
  assert (H5 : subprocess_run
                 (argv_of (self (nothing_found (unlocked 5 None)))
                          [lit "search"; lit "-q"; db_kdbx; github])
                 (passphrase (self (nothing_found (unlocked 5 None))))
                 (world (nothing_found (unlocked 5 None)))
               = (Some (mkProc (lit "No results for that search term.") [] 1),
                  sim_tick (world (nothing_found (unlocked 5 None)))))
    by (vm_compute; reflexivity).
  split.
  - rewrite (search_extends_window _ _ github db_kdbx _ _ H1 H2 H3 H4 H5
                                   (at_time 8000000 sim0)).
    vm_compute; reflexivity.
  - rewrite (search_extends_window _ _ github db_kdbx _ _ H1 H2 H3 H4 H5
                                   (at_time 8000001 sim0)).
    vm_compute; reflexivity.
Defined.

(** With timeout 0, an entry that does not exist is asked for: the call
    raises and the database stays unlocked. *)
Lemma queries_keep_passphrase_witness :
  passphrase (self (after (get_entry_details github)
                          (entry_missing (unlocked 0 None))))
    = passphrase (self (entry_missing (unlocked 0 None))) /\
  outcome is_passphrase_needed
          (set_world sim0 (after (get_entry_details github)
                                 (entry_missing (unlocked 0 None))))
    = Return false.
Proof.
  assert (Hl : is_passphrase_needed (entry_missing (unlocked 0 None)) =
               (Return false, entry_missing (unlocked 0 None)))
    by (vm_compute; reflexivity).
  split.
  - exact (proj1 (proj2 (proj2 (queries_keep_passphrase
                                  _ _ Hl github github)))).
  - exact (proj2 (proj2 (proj2 (proj2 (queries_keep_passphrase
                                         _ _ Hl github github)))
                        eq_refl sim0)).
Defined.

(** The one name the simulated search returns is a single line. *)
Lemma search_names_single_line_witness : Forall one_line [github].
Proof.
  refine (search_names_single_line (unlocked 0 None) github [github] _).
  vm_compute; reflexivity.
Defined.

(** The tool says [No results for that search term.] and the search returns
    the empty list. *)
Lemma search_empty_iff_marker_witness :
  outcome (search github) (nothing_found (unlocked 5 None)) = Return [] <->
  exists pre post : str,
    proc_stderr (mkProc (lit "No results for that search term.") [] 1)
      = pre ++ lit "No results for that" ++ post.
Proof.
  refine (proj1 (search_empty_iff_marker
                   (nothing_found (unlocked 5 None))
                   (nothing_found (unlocked 5 None))
                   github db_kdbx
                   (mkProc (lit "No results for that search term.") [] 1)
                   (sim_tick (world (nothing_found (unlocked 5 None))))
                   _ _ _ _ _)).
  - vm_compute; reflexivity.
  - vm_compute; reflexivity.
  - vm_compute; reflexivity.
  - vm_compute; discriminate.
  - right. apply representable_iff. vm_compute; reflexivity.
Defined.

(** The dict read for the simulated entry holds the notes. *)
Lemma entry_details_keys_and_values_witness :
  is_Some (filled ∅ ATTRS
                  [lit "octocat" ++ [LF]; lit "hunter2" ++ [LF];
                   lit "https://github.com" ++ [LF];
                   [LF] ++ lit "second line" ++ [LF]] !! lit "Notes")
  <-> lit "Notes" ∈ ATTRS.
Proof.
  refine (proj1 (entry_details_keys_and_values
                   (unlocked 0 None)
                   (after (get_entry_details github) (unlocked 0 None))
                   github _ _)
                (lit "Notes")).
  vm_compute; reflexivity.
Defined.

(** The tool writes [/Personal/GitHub]; the search returns
    [Personal/GitHub], and the show command is given [/Personal/GitHub]. *)
Lemma entry_name_round_trip_witness :
  outcome (search github) (unlocked 5 None)
    = Return [lit "Personal/GitHub"] /\
  last (show_args (self (unlocked 5 None)) (lit "Notes")
                  (lit "Personal/GitHub"))
    = Some (Some (lit "/Personal/GitHub")).
Proof.
  assert (H1 : is_passphrase_needed (unlocked 5 None)
               = (Return false, unlocked 5 None))
    by (vm_compute; reflexivity).
  assert (H2 : path (self (unlocked 5 None)) = Some db_kdbx)
    by (vm_compute; reflexivity).
  assert (H3 : subprocess_run
                 (argv_of (self (unlocked 5 None))
                          [lit "search"; lit "-q"; db_kdbx; github])
                 (passphrase (self (unlocked 5 None)))
                 (world (unlocked 5 None))
               = (Some (sim_search sim0),
                  sim_tick (world (unlocked 5 None))))
    by (vm_compute; reflexivity).
  assert (H4 : representable
                 (fst (datetime_now (sim_tick (world (unlocked 5 None)))))
                 (inactivity_lock_timeout (self (unlocked 5 None))))
    by (apply representable_iff; vm_compute; reflexivity).
  pose proof (proj1 (entry_name_round_trip
                       (unlocked 5 None) (unlocked 5 None) github db_kdbx
                       (sim_search sim0)
                       (sim_tick (world (unlocked 5 None)))
                       H1 H2 H3 eq_refl (or_intror H4))
                    [lit "Personal/GitHub"]) as W.
  destruct W as [Ho Hshow].
  - repeat constructor.
  - reflexivity.
  - split; [exact Ho|].
    apply (Hshow (self (unlocked 5 None)) (lit "Notes")
                 (lit "Personal/GitHub")).
    apply list_elem_of_here.
Defined.

(** Its second process is the listing command. *)
Lemma only_the_tool_is_started_witness :
  head (argv (mkInv [lit "keepassxc-cli"; lit "ls"; lit "-q"; db_kdbx]
                    (Some correct)))
    = Some (lit "keepassxc-cli") /\
  (input (mkInv [lit "keepassxc-cli"; lit "ls"; lit "-q"; db_kdbx]
                (Some correct)) = None ->
   argv (mkInv [lit "keepassxc-cli"; lit "ls"; lit "-q"; db_kdbx]
               (Some correct)) = [lit "keepassxc-cli"]).
Proof.
  refine (only_the_tool_is_started session sim0 _ _).
  apply (list_elem_of_lookup_2 _ 1%nat).
  vm_compute; reflexivity.
Defined.

(** The passphrase it holds at the end is the one it was handed. *)
Lemma only_supplied_passphrases_are_used_witness :
  VerifyAndSetPassphrase correct ∈ session.
Proof.
  refine (proj1 (only_supplied_passphrases_are_used session sim0) correct _).
  vm_compute; reflexivity.
Defined.

(** Three entries under a limit of two: two are shown and one is
    announced. *)
Lemma search_results_accounts_for_all_witness :
  search_results (lit "kp") (lit "git") [lit "a"; lit "b"; lit "c"] 2 =
    map (entry_item (lit "kp") (lit "git"))
        (take (Z.to_nat 2) [lit "a"; lit "b"; lit "c"])
      ++ [item_more_results_available
            (Z.of_nat (List.length [lit "a"; lit "b"; lit "c"]) - 2)] /\
  Z.of_nat (List.length
              (search_results (lit "kp") (lit "git")
                              [lit "a"; lit "b"; lit "c"] 2)) = 2 + 1 /\
  0 < Z.of_nat (List.length [lit "a"; lit "b"; lit "c"]) - 2.
Proof.
  refine (proj2 (search_results_accounts_for_all
                   (lit "kp") (lit "git") [lit "a"; lit "b"; lit "c"] 2 _ _)
                _).
  - discriminate.
  - lia.
  - vm_compute; reflexivity.
Defined.

(** One entry under a limit of -1: nothing is shown and two more results
    are announced. *)
Lemma search_results_negative_limit_witness :
  search_results (lit "kp") (lit "git") [github] (-1) =
    [item_more_results_available 2] /\
  item_more_results_available 2 =
    ExtensionSmallResultItem
      (lit "images/empty.png")
      (lit "...2 more results available, please refine the search query...")
      DoNothingAction.
Proof.
  split; [|vm_compute; reflexivity].
  rewrite (proj1 (search_results_negative_limit
                    (lit "kp") (lit "git") [github] (-1)
                    ltac:(discriminate) ltac:(lia))).
  vm_compute; reflexivity.
Defined.
